(** * resume-summarizer: a shallow embedding of [main.py]

    The script reads a resume (PDF or Word), cleans the text with regular
    expressions, sends one prompt to a hosted model, decodes the answer
    (JSON, or a regular-expression fallback) and fills the placeholders of a
    slide template.  This file embeds those functions and states the
    properties the specification gives for them.

    Python values are modelled as follows.
    - [str] is a list of Unicode code points ([pystr]).
    - [dict] is an association list in insertion order, as the iteration
      order of a dict is observable in [fill_ppt_template].
    - [re] is a backtracking matcher over a small pattern syntax; every
      pattern of the script is transcribed into it.
    - calls into libraries (pdfplumber, python-docx, the model client,
      json, streamlit) are answered by an environment record and logged as
      events, with exceptions as an explicit outcome.
    - a slide shape is a record of paragraphs of runs, after python-pptx;
      a paragraph holds runs only (no line-break or field elements).  The
      text of a run is what python-pptx stores for the text assigned to
      it: control characters are spelled out, and a character that XML
      refuses raises an exception; a font size outside 1 to 4000 points
      raises as well.
    - floats are the binary64 floats of the kernel, as Python's are. *)

From Stdlib Require Import Ascii String.
From Stdlib Require Import List NArith ZArith Bool Lia Floats.
Import ListNotations.
Set Warnings "-inexact-float,-register-all".

(** ** Python strings *)

Definition char := N.
Definition pystr := list char.

(** An ASCII literal as a Python string. *)
Definition py (s : string) : pystr := map N_of_ascii (list_ascii_of_string s).
Arguments py s%_string.

Definition NL : char := 10%N.
Definition char_eqb : char -> char -> bool := N.eqb.

Fixpoint str_eqb (a b : pystr) : bool :=
  match a, b with
  | [], [] => true
  | x :: a', y :: b' => char_eqb x y && str_eqb a' b'
  | _, _ => false
  end.

(** [is_prefix p s] is [s.startswith(p)]. *)
Fixpoint is_prefix (p s : pystr) : bool :=
  match p, s with
  | [], _ => true
  | a :: p', b :: s' => char_eqb a b && is_prefix p' s'
  | _ :: _, [] => false
  end.

Definition startswith (s p : pystr) : bool := is_prefix p s.
Definition endswith (s p : pystr) : bool := is_prefix (rev p) (rev s).

(** [contains s sub] is [sub in s]. *)
Fixpoint contains (s sub : pystr) {struct s} : bool :=
  match s with
  | [] => is_prefix sub []
  | _ :: s' => is_prefix sub s || contains s' sub
  end.

(** [str.replace(old, new)]: non-overlapping occurrences, left to right.
    [skip] counts the characters of an occurrence still to be dropped. *)
Fixpoint replace_go (old new : pystr) (skip : nat) (s : pystr) : pystr :=
  match s with
  | [] => []
  | c :: s' =>
      match skip with
      | S k => replace_go old new k s'
      | O =>
          if is_prefix old s
          then new ++ replace_go old new (length old - 1) s'
          else c :: replace_go old new 0 s'
      end
  end.

Definition str_replace (s old new : pystr) : pystr :=
  match old with
  | [] => new ++ flat_map (fun c => c :: new) s
  | _ :: _ => replace_go old new 0 s
  end.

(** [s.split(sep)] for a one-character separator. *)
Fixpoint split_on (sep : char) (s : pystr) : list pystr :=
  match s with
  | [] => [[]]
  | c :: s' =>
      if char_eqb c sep then [] :: split_on sep s'
      else match split_on sep s' with
           | l :: ls => (c :: l) :: ls
           | [] => [[c]]
           end
  end.

(** [sep.join(l)]. *)
Fixpoint join (sep : pystr) (l : list pystr) : pystr :=
  match l with
  | [] => []
  | [x] => x
  | x :: l' => x ++ sep ++ join sep l'
  end.

(** Whitespace as [str.strip] and the pattern [\s] see it
    (CPython's Py_UNICODE_ISSPACE). *)
Definition is_space (c : char) : bool :=
  ((9 <=? c) && (c <=? 13) || (28 <=? c) && (c <=? 32)
   || (c =? 133) || (c =? 160) || (c =? 5760)
   || (8192 <=? c) && (c <=? 8202)
   || (c =? 8232) || (c =? 8233) || (c =? 8239) || (c =? 8287)
   || (c =? 12288))%N.

Fixpoint lstrip (s : pystr) : pystr :=
  match s with
  | [] => []
  | c :: s' => if is_space c then lstrip s' else s
  end.

Definition rstrip (s : pystr) : pystr := rev (lstrip (rev s)).
Definition strip (s : pystr) : pystr := rstrip (lstrip s).

(** The first character of a string, when there is one, is not white space. *)
Definition head_ok (s : pystr) : bool :=
  match s with
  | [] => true
  | c :: _ => negb (is_space c)
  end.

(** [s[2:-2]]. *)
Definition slice_2_m2 (s : pystr) : pystr :=
  firstn (length s - 2 - 2) (skipn 2 s).

(** Truthiness of a string. *)
Definition nonempty (s : pystr) : bool :=
  match s with [] => false | _ :: _ => true end.

(** ** The Unicode tables of the runtime

    [\d], [\w], [str.lower] and [str.upper] consult the character database
    of the interpreter, which is not part of the repository.  On ASCII the
    classes are fixed below; beyond ASCII they are read from a table. *)

Record unicode_db := {
  uni_digit : char -> bool;      (* category Nd, code points above 127 *)
  uni_alnum : char -> bool;      (* [str.isalnum], code points above 127 *)
  uni_lower : pystr -> pystr;    (* [str.lower] *)
  uni_upper : pystr -> pystr     (* [str.upper] *)
}.

Definition in_range (lo hi c : char) : bool := ((lo <=? c) && (c <=? hi))%N.
Arguments in_range (lo hi c)%_N.

Definition is_digit (db : unicode_db) (c : char) : bool :=
  if (c <? 128)%N then in_range 48 57 c else uni_digit db c.

Definition is_word (db : unicode_db) (c : char) : bool :=
  if (c <? 128)%N
  then in_range 48 57 c || in_range 65 90 c || in_range 97 122 c || (c =? 95)%N
  else uni_alnum db c.

(** The tables restricted to ASCII: no digit or letter above 127, and case
    conversion of the letters A-Z and a-z only. *)
Definition ascii_lower_char (c : char) : char :=
  if in_range 65 90 c then (c + 32)%N else c.
Definition ascii_upper_char (c : char) : char :=
  if in_range 97 122 c then (c - 32)%N else c.

Definition ascii_db : unicode_db := {|
  uni_digit := fun _ => false;
  uni_alnum := fun _ => false;
  uni_lower := map ascii_lower_char;
  uni_upper := map ascii_upper_char
|}.

(** ** Regular expressions

    The fragment of [re] that the script uses: character tests, sequence,
    greedy and lazy repetition, numbered groups and positive look-ahead.
    None of the script's patterns looks behind the current position, so a
    match at a position is a function of the text from there on. *)

Inductive regex :=
| Eps
| Chr (p : char -> bool)
| Seq (r1 r2 : regex)
| Star (greedy : bool) (r : regex)
| Group (i : nat) (r : regex)
| Look (r : regex).

Definition caps := list (nat * pystr).

Definition cont := pystr -> caps -> option (pystr * caps).

(** Repetition of a matcher [m]: each iteration must consume a character, so
    [n] iterations suffice for a text of fewer than [n] characters.  A
    greedy repetition first tries one more iteration, a lazy one first tries
    to go on with [k]. *)
Fixpoint star_loop (m : pystr -> caps -> cont -> option (pystr * caps))
    (greedy : bool) (k : cont) (n : nat) (s : pystr) (c : caps)
    : option (pystr * caps) :=
  match n with
  | O => k s c
  | S n' =>
      let again := fun s' c' =>
        if (length s' <? length s)%nat then star_loop m greedy k n' s' c'
        else None in
      if greedy then
        match m s c again with
        | Some x => Some x
        | None => k s c
        end
      else
        match k s c with
        | Some x => Some x
        | None => m s c again
        end
  end.

(** Backtracking matcher in continuation-passing style: [k] receives the
    rest of the text and the groups captured so far, and alternatives are
    tried in the order of the [re] engine. *)
Fixpoint rmatch (r : regex) (s : pystr) (c : caps) (k : cont) {struct r}
    : option (pystr * caps) :=
  match r with
  | Eps => k s c
  | Chr p =>
      match s with
      | x :: s' => if p x then k s' c else None
      | [] => None
      end
  | Seq r1 r2 => rmatch r1 s c (fun s1 c1 => rmatch r2 s1 c1 k)
  | Star g r1 => star_loop (rmatch r1) g k (S (length s)) s c
  | Group i r1 =>
      rmatch r1 s c
        (fun s' c' => k s' ((i, firstn (length s - length s') s) :: c'))
  | Look r1 =>
      match rmatch r1 s c (fun s' c' => Some (s', c')) with
      | Some _ => k s c
      | None => None
      end
  end.

(** A match of [r] at the start of [s]: the number of characters matched
    and the groups. *)
Definition match_at (r : regex) (s : pystr) : option (nat * caps) :=
  match rmatch r s [] (fun s' c => Some (s', c)) with
  | Some (s', c) => Some (length s - length s', c)
  | None => None
  end.

Fixpoint group (c : caps) (i : nat) : pystr :=
  match c with
  | [] => []
  | (j, t) :: c' => if Nat.eqb i j then t else group c' i
  end.

(** [re.sub(r, repl, s)] for a pattern that does not match the empty
    string (no pattern of the script does). *)
Fixpoint sub_go (r : regex) (repl : pystr) (skip : nat) (s : pystr) : pystr :=
  match s with
  | [] => []
  | c :: s' =>
      match skip with
      | S k => sub_go r repl k s'
      | O =>
          match match_at r s with
          | Some (S n, _) => repl ++ sub_go r repl n s'
          | _ => c :: sub_go r repl 0 s'
          end
      end
  end.

Definition re_sub (r : regex) (repl s : pystr) : pystr := sub_go r repl 0 s.

(** [re.finditer(r, s)]: the groups of the successive matches. *)
Fixpoint finditer_go (r : regex) (skip : nat) (s : pystr) : list caps :=
  match s with
  | [] => []
  | _ :: s' =>
      match skip with
      | S k => finditer_go r k s'
      | O =>
          match match_at r s with
          | Some (S n, c) => c :: finditer_go r n s'
          | _ => finditer_go r 0 s'
          end
      end
  end.

Definition re_finditer (r : regex) (s : pystr) : list caps := finditer_go r 0 s.

(** [re.split(r, s)] for a pattern with one group that takes part in every
    match: the pieces between the matches, with group 1 of each match in
    between.  [cur] is the current piece, reversed. *)
Fixpoint split_go (r : regex) (skip : nat) (cur s : pystr) : list pystr :=
  match s with
  | [] => [rev cur]
  | c :: s' =>
      match skip with
      | S k => split_go r k cur s'
      | O =>
          match match_at r s with
          | Some (S n, g) => rev cur :: group g 1 :: split_go r n [] s'
          | _ => split_go r 0 (c :: cur) s'
          end
      end
  end.

Definition re_split (r : regex) (s : pystr) : list pystr := split_go r 0 [] s.

(** The texts a pattern can match, read off its syntax: the words of a
    repetition are those of its iterations, one after the other, and a
    look-ahead consumes nothing. *)
Fixpoint lang (r : regex) (w : pystr) : Prop :=
  match r with
  | Eps => w = []
  | Chr p => exists x, w = [x] /\ p x = true
  | Seq r1 r2 => exists u v, w = u ++ v /\ lang r1 u /\ lang r2 v
  | Star _ r1 => exists ws, w = concat ws /\ Forall (lang r1) ws
  | Group _ r1 => lang r1 w
  | Look _ => w = []
  end.

(** In the list [re.split] returns, the pieces at the odd places (which are
    the groups of the matches) satisfy [P]. *)
Fixpoint spans_ok (P : pystr -> Prop) (pieces : list pystr) : Prop :=
  match pieces with
  | _ :: m :: rest => P m /\ spans_ok P rest
  | _ => True
  end.

(** Pattern builders. *)
Definition lit (c : char) : regex := Chr (char_eqb c).
Arguments lit c%_N.

Fixpoint lits (s : pystr) : regex :=
  match s with
  | [] => Eps
  | c :: s' => Seq (lit c) (lits s')
  end.

Definition star (r : regex) : regex := Star true r.
Definition lazy_star (r : regex) : regex := Star false r.
Definition plus (r : regex) : regex := Seq r (Star true r).

Fixpoint rep (n : nat) (r : regex) : regex :=
  match n with
  | O => Eps
  | S n' => Seq r (rep n' r)
  end.

Fixpoint seqs (l : list regex) : regex :=
  match l with
  | [] => Eps
  | r :: l' => Seq r (seqs l')
  end.

(** A literal under [re.IGNORECASE].  The letters that occur in the
    script's case-insensitive patterns (p, a, g, e) have no case variant
    outside ASCII. *)
Definition lit_i (c : char) : regex :=
  Chr (fun x => char_eqb x (ascii_lower_char c) || char_eqb x (ascii_upper_char c)).

Fixpoint lits_i (s : pystr) : regex :=
  match s with
  | [] => Eps
  | c :: s' => Seq (lit_i c) (lits_i s')
  end.

Definition ws : regex := Chr is_space.
Definition any_char : regex := Chr (fun c => negb (char_eqb c NL)).

(** ** Slides (python-pptx)

    A run carries text and character formatting; an attribute that was
    never assigned is [None].  Sizes are in points. *)

Record font := {
  font_bold : option bool;
  font_size : option Z;
  font_name : option pystr;
  font_rgb : option (Z * Z * Z)
}.

Record run := { run_text : pystr; run_font : font }.

Record paragraph := { runs : list run; space_after : option Z }.

Inductive anchor := TOP | MIDDLE | BOTTOM.

Record shape := {
  has_text_frame : bool;
  paragraphs : list paragraph;      (* of the text frame, when there is one *)
  word_wrap : option bool;
  vertical_anchor : option anchor
}.

Definition slide := list shape.
Definition presentation := list slide.

(** ** Exceptions, library calls and the event log *)

(** An instance of [Exception], with the text that [str(e)] gives for it. *)
Inductive exn := Exception (msg : pystr).

Definition exn_str (e : exn) : pystr := match e with Exception m => m end.

Inductive outcome (A : Type) :=
| Ret (a : A)
| Raise (e : exn).
Arguments Ret {A} a.
Arguments Raise {A} e.

(** Sequencing of steps that may raise, and a [for] loop over a list whose
    body may raise: the first exception ends the loop. *)
Definition and_then {A B} (o : outcome A) (f : A -> outcome B) : outcome B :=
  match o with
  | Ret a => f a
  | Raise e => Raise e
  end.

Fixpoint for_each {A S} (body : S -> A -> outcome S) (l : list A) (s : S) : outcome S :=
  match l with
  | [] => Ret s
  | a :: l' => and_then (body s a) (for_each body l')
  end.

(** What the script asks of the world outside it. *)
Inductive event :=
| PdfOpen (path : pystr)                  (* pdfplumber.open(path) *)
| PageExtract (layout : bool)             (* page.extract_text(layout=...) *)
| DocxOpen (path : pystr)                 (* Document(path) *)
| StError (msg : pystr)                   (* st.error(msg) *)
| GenerateContent (model prompt : pystr)  (* client.models.generate_content *)
| PptxOpen (path : pystr)                 (* Presentation(path) *)
| PptxSave (prs : presentation) (path : pystr).   (* prs.save(path) *)

(** A computation: the events it caused, then its value or the exception
    that ended it. *)
Definition M (A : Type) : Type := list event * outcome A.

Definition ret {A} (a : A) : M A := ([], Ret a).
Definition raise {A} (e : exn) : M A := ([], Raise e).

Definition bind {A B} (m : M A) (f : A -> M B) : M B :=
  match m with
  | (l, Ret a) => let (l', o) := f a in (l ++ l', o)
  | (l, Raise e) => (l, Raise e)
  end.

(** A call into a library: one event, and the library's answer. *)
Definition call {A} (ev : event) (answer : outcome A) : M A := ([ev], answer).

(** [try: m except Exception as e: h e]. *)
Definition try_except {A} (m : M A) (h : exn -> M A) : M A :=
  match m with
  | (l, Raise e) => let (l', o) := h e in (l ++ l', o)
  | (l, Ret a) => (l, Ret a)
  end.

Definition events {A} (m : M A) : list event := fst m.
Definition result {A} (m : M A) : outcome A := snd m.

Notation "x <- m ;; k" := (bind m (fun x => k))
  (at level 61, m at next level, right associativity).

(** ** The libraries as an environment *)

(** A page of a PDF: what [extract_text()] and [extract_text(layout=True)]
    answer ([None] or a string), or the exception they raise. *)
Record pdf_page := {
  page_extract_text : outcome (option pystr);
  page_extract_text_layout : outcome (option pystr)
}.

(** A section of a Word document: the paragraph texts of its header and of
    its footer. *)
Record docx_section := {
  header_paragraphs : outcome (list pystr);
  footer_paragraphs : outcome (list pystr)
}.

(** A Word document: paragraph texts, tables as rows of cell texts, and
    sections. *)
Record docx_document := {
  doc_paragraphs : outcome (list pystr);
  doc_tables : outcome (list (list (list pystr)));
  doc_sections : outcome (list docx_section)
}.

(** ** Text extraction ([extract_text], lines 17-131) *)

Definition is_hex (c : char) : bool :=
  in_range 48 57 c || in_range 65 70 c || in_range 97 102 c.

Definition xml_artifacts (db : unicode_db) : list regex :=
  [ seqs [lits (py "_x"); rep 4 (Chr is_hex); lit 95]           (* _x[0-9A-Fa-f]{4}_ *)
  ; seqs [lit 60; plus (Chr (fun c => negb (c =? 62)%N)); lit 62] (* <[^>]+> *)
  ; seqs [lit 38; plus (Chr (is_word db)); lit 59]              (* &\w+; *)
  ; lit 0                                                       (* \u0000 *)
  ; lits [1; 45; 8]%N                                           (* \u0001-\u0008 *)
  ; lits [11; 45; 12]%N                                         (* \u000B-\u000C *)
  ; lits [14; 45; 31]%N                                         (* \u000E-\u001F *)
  ].

Definition whitespace_patterns : list regex :=
  [ plus (lit 9)                 (* \t+ *)
  ; lits [13; 10]%N              (* \r\n *)
  ; lit 13                       (* \r *)
  ; plus (lit 10)                (* \n+ *)
  ; lit 12                       (* \f *)
  ; lit 11                       (* \v *)
  ; lit 8203                     (* \u200B *)
  ; lit 160                      (* \u00A0 *)
  ; lits [8192; 45; 8207]%N      (* \u2000-\u200F *)
  ; lits [8232; 45; 8233]%N      (* \u2028-\u2029 *)
  ].

(** Matched with [flags=re.IGNORECASE]. *)
Definition page_break_indicators (db : unicode_db) : list regex :=
  [ seqs [lit 45; star ws; lits_i (py "Page"); star ws;
          plus (Chr (is_digit db)); star ws; lit 45]        (* -\s*Page\s*\d+\s*- *)
  ; seqs [lit 91; lits_i (py "page "); plus (Chr (is_digit db)); lit 93]
                                                            (* \[page \d+\] *)
  ; lit 12                                                  (* \x0c *)
  ; lit 12                                                  (* \f *)
  ].

(** The loop over [lines] that keeps the first occurrence of every non-blank
    stripped line. *)
Fixpoint unique_lines (seen : list pystr) (lines : list pystr) : list pystr :=
  match lines with
  | [] => []
  | line :: rest =>
      let clean_line := strip line in
      if nonempty clean_line && negb (existsb (str_eqb clean_line) seen)
      then clean_line :: unique_lines (clean_line :: seen) rest
      else unique_lines seen rest
  end.

(** The text just before the duplicate-line step (lines 30-63). *)
Definition clean_text_passes (db : unicode_db) (text : pystr) : pystr :=
  let text := fold_left (fun t pattern => re_sub pattern [] t) (xml_artifacts db) text in
  let text := fold_left (fun t pattern => re_sub pattern (py " ") t) whitespace_patterns text in
  let text := fold_left (fun t pattern => re_sub pattern (py " ") t) (page_break_indicators db) text in
  let text := re_sub (plus (lit 32)) (py " ") text in
  strip text.

Definition clean_text (db : unicode_db) (text : pystr) : pystr :=
  let text := clean_text_passes db text in
  let lines := split_on NL text in
  join [NL] (unique_lines [] lines).

(** The two clean-ups of a page's text in the PDF branch. *)
Definition hyphen_break : regex :=                 (* \s*-\s*\n\s* *)
  seqs [star ws; lit 45; star ws; lit 10; star ws].
Definition broken_line : regex :=                  (* \n\s*(?=[a-z]) *)
  seqs [lit 10; star ws; Look (Chr (in_range 97 122))].

(** [not page_text or len(page_text.strip()) < 10], where [page_text] is
    [None] or a string. *)
Definition needs_layout (t : option pystr) : bool :=
  match t with
  | Some (c :: s) => (length (strip (c :: s)) <? 10)%nat
  | _ => true
  end.

Fixpoint pdf_pages (pages : list pdf_page) (text : pystr) : M pystr :=
  match pages with
  | [] => ret text
  | page :: rest =>
      page_text <- call (PageExtract false) (page_extract_text page) ;;
      page_text <- (if needs_layout page_text
                    then call (PageExtract true) (page_extract_text_layout page)
                    else ret page_text) ;;
      match page_text with
      | Some (c :: s) =>
          let t := re_sub hyphen_break (py "-") (c :: s) in
          let t := re_sub broken_line (py " ") t in
          pdf_pages rest (text ++ t ++ [NL])
      | _ => pdf_pages rest text
      end
  end.

Definition keep_nonblank (l : list pystr) : list pystr :=
  filter (fun t => nonempty (strip t)) l.

(** The inner [try ... except: pass] over headers and footers: what was
    appended before an exception stays appended. *)
Fixpoint section_texts (secs : list docx_section) : list pystr :=
  match secs with
  | [] => []
  | sec :: rest =>
      match header_paragraphs sec with
      | Raise _ => []
      | Ret h =>
          keep_nonblank h ++
          match footer_paragraphs sec with
          | Raise _ => []
          | Ret f => keep_nonblank f ++ section_texts rest
          end
      end
  end.

Record libs := {
  pdfplumber_open : pystr -> outcome (list pdf_page);
  docx_Document : pystr -> outcome docx_document
}.

Definition pdf_branch (db : unicode_db) (L : libs) (file_path : pystr) : M pystr :=
  pdf <- call (PdfOpen file_path) (pdfplumber_open L file_path) ;;
  text <- pdf_pages pdf [] ;;
  ret (clean_text db text).

Definition docx_branch (db : unicode_db) (L : libs) (file_path : pystr) : M pystr :=
  doc <- call (DocxOpen file_path) (docx_Document L file_path) ;;
  paragraphs <- ([], doc_paragraphs doc) ;;
  let full_text := keep_nonblank paragraphs in
  tables <- ([], doc_tables doc) ;;
  let full_text := full_text ++ keep_nonblank (concat (concat tables)) in
  let full_text :=
    full_text ++ match doc_sections doc with
                 | Ret secs => section_texts secs
                 | Raise _ => []
                 end in
  ret (clean_text db (join [NL] full_text)).

Definition error_message (e : exn) : pystr :=
  py "Error extracting text from file: " ++ exn_str e.

(** The body of the outer [try] (lines 78-127). *)
Definition extract_body (db : unicode_db) (L : libs) (file_path : pystr) : M pystr :=
  if endswith (uni_lower db file_path) (py ".pdf")
  then pdf_branch db L file_path
  else docx_branch db L file_path.

Definition extract_text (db : unicode_db) (L : libs) (file_path : pystr) : M pystr :=
  try_except (extract_body db L file_path)
    (fun e => _ <- call (StError (error_message e)) (Ret tt) ;; ret []).

(** Events by the library they go to. *)
Definition is_pdf_event (ev : event) : bool :=
  match ev with PdfOpen _ | PageExtract _ => true | _ => false end.
Definition is_docx_event (ev : event) : bool :=
  match ev with DocxOpen _ => true | _ => false end.
Definition is_request (ev : event) : bool :=
  match ev with GenerateContent _ _ => true | _ => false end.

(** ** Summarisation ([summarize_with_gemini], lines 134-204) *)

Definition dq : pystr := [34]%N.

(** The fixed part of the prompt (lines 140-186), line by line, with the
    doubled braces of the f-string already read as single braces. *)
Definition prompt_lines : list pystr :=
  [ py "You are a professional technical r" ++ [233]%N ++ py "sum" ++ [233]%N ++ py " summarizer creating concise, impactful summaries for a 1-page PowerPoint r" ++ [233]%N ++ py "sum" ++ [233]%N ++ py ".";
    [];
    py "Produce JSON with these exact keys:";
    py "{";
    py "  " ++ dq ++ py "name" ++ dq ++ py ": " ++ dq ++ dq ++ py ",";
    py "  " ++ dq ++ py "role" ++ dq ++ py ": " ++ dq ++ dq ++ py ",";
    py "  " ++ dq ++ py "location" ++ dq ++ py ": " ++ dq ++ dq ++ py ",";
    py "  " ++ dq ++ py "profile_overview" ++ dq ++ py ": " ++ dq ++ dq ++ py ",";
    py "  " ++ dq ++ py "professional_experience" ++ dq ++ py ": " ++ dq ++ dq ++ py ",";
    py "  " ++ dq ++ py "skills" ++ dq ++ py ": " ++ dq ++ dq ++ py ",";
    py "  " ++ dq ++ py "domain_experience" ++ dq ++ py ": " ++ dq ++ dq ++ py ",";
    py "  " ++ dq ++ py "education_and_certification" ++ dq ++ py ": " ++ dq ++ dq;
    py "}";
    [];
    [129504]%N ++ py " Guidelines:";
    [];
    py "1. PROFILE OVERVIEW:";
    py "   - 5" ++ [8211]%N ++ py "6 lines in a paragraph highlighting experience, domains, tools/technologies (" ++ py "**bold**" ++ py "), and achievements.";
    py "   - Include domain expertise, key tools, automation/workflow knowledge.";
    py "   - Example: " ++ dq ++ py "Accomplished Data Engineer with over 5 years of experience designing and delivering robust end-to-end ETL/ELT pipelines across Finance, Healthcare and Banking domains. Proficient in **dbt**, **Snowflake**, **Azure Data Factory (ADF)**, **SQL**. Expert in automating ETL with **ControlM**, **MFP**, and **ADF**, integrating data from **Oracle**, **SQL Server**, and **AWS S3**." ++ dq;
    [];
    py "2. LOCATION:";
    py "   - Extract candidate's current city and country. Always fill this field.";
    py "   - Example: " ++ dq ++ py "Bangalore, India" ++ dq;
    [];
    py "3. PROFESSIONAL EXPERIENCE:";
    py "   - Include **only the 3 most recent projects or roles** from the r" ++ [233]%N ++ py "sum" ++ [233]%N ++ py ".";
    py "   - Each project should have a **bold heading** with 2" ++ [8211]%N ++ py "3 bullets explaining what was built, tools used, and outcomes.";
    py "   - Bullet points should start with " ++ dq ++ py "* " ++ dq ++ py ".";
    py "   - Limit total text to ~900" ++ [8211]%N ++ py "1000 characters to fit in PowerPoint.";
    py "   - Example:";
    py "     **Customer Data Pipeline Migration at XYZ Corp**";
    py "     * Leveraged **Snowflake**, **dbt**, **Azure Data Factory (ADF)** to build scalable data models and ensure high-quality reconciled datasets.";
    py "     * Automated ETL processes with **ControlM**, improving data processing efficiency by 30%.";
    [];
    py "4. SKILLS: Comma-separated list of key skills/technologies. Limit to 15 top skills.";
    [];
    py "5. DOMAIN EXPERIENCE: 2" ++ [8211]%N ++ py "3 short items describing domains worked in.";
    [];
    py "6. EDUCATION & CERTIFICATION: 1" ++ [8211]%N ++ py "2 lines. Always fill this field.";
    [];
    [128313]%N ++ py " Formatting rules:";
    py "- Use Markdown-style bold (" ++ py "**text**" ++ py ") for tools, technologies, and project names.";
    py "- Keep text compact (~1000 characters per large section).";
    py "- Preserve line breaks for bullets and paragraphs.";
    [];
    py "Resume text:"
  ].

Definition build_prompt (text : pystr) : pystr :=
  [NL] ++ join [NL] prompt_lines ++ [NL] ++ text ++ [NL].

(** Values that [json.loads] can return. *)
Inductive json :=
| JNull
| JBool (b : bool)
| JInt (z : Z)
| JFloat (f : float)
| JStr (s : pystr)
| JArr (l : list json)
| JObj (d : list (pystr * json)).

(** A [dict] with string keys, in insertion order. *)
Definition dict := list (pystr * json).

(** [d[k] = v]: an existing key keeps its place. *)
Fixpoint dict_set (d : dict) (k : pystr) (v : json) : dict :=
  match d with
  | [] => [(k, v)]
  | (k', v') :: d' =>
      if str_eqb k k' then (k', v) :: d' else (k', v') :: dict_set d' k v
  end.

Definition keys (d : dict) : list pystr := map fst d.

(** The model service and the JSON decoder. *)
Record services := {
  generate_content : pystr -> pystr -> outcome (option pystr);
    (* model, contents |-> response.text, which may be None *)
  json_loads : pystr -> outcome json
}.

Definition non_ascii_run : regex :=          (* [^\x00-\x7F]+ *)
  plus (Chr (fun c => negb (in_range 0 127 c))).
Definition whitespace_run : regex :=         (* \s+ *)
  plus ws.

(** The pattern of line 202: a double quote, group 1 = one or more [\w],
    a double quote, optional white space, a colon, optional white space, a
    double quote, group 2 = any characters but the double quote, a double
    quote.  The flag [re.DOTALL] changes nothing, as the pattern has no dot. *)
Definition pair_pattern (db : unicode_db) : regex :=
  seqs [lit 34; Group 1 (plus (Chr (is_word db))); lit 34; star ws; lit 58;
        star ws; lit 34; Group 2 (star (Chr (fun c => negb (c =? 34)%N)));
        lit 34].

(** [v.replace('\\n', '\n').strip()] *)
Definition unescape (v : pystr) : pystr :=
  strip (str_replace v [92; 110]%N [NL]).   (* 92, 110: a backslash and n *)

Definition unescape_value (v : json) : json :=
  match v with
  | JStr s => JStr (unescape s)
  | _ => v
  end.

(** The [try] block (lines 196-199): only a dict has [.items()]. *)
Definition decode_json (svc : services) (content : pystr) : M dict :=
  data <- ([], json_loads svc content) ;;
  match data with
  | JObj d => ret (map (fun kv => (fst kv, unescape_value (snd kv))) d)
  | _ => raise (Exception (py "object has no attribute 'items'"))
  end.

(** The [except] block (lines 201-203). *)
Definition decode_pairs (db : unicode_db) (content : pystr) : dict :=
  fold_left
    (fun data m => dict_set data (group m 1) (JStr (unescape (group m 2))))
    (re_finditer (pair_pattern db) content) [].

Definition model_name : pystr := py "gemini-2.5-flash".

(** The prompt sent for a resume text (lines 136-188). *)
Definition prompt_for (text : pystr) : pystr :=
  let text := re_sub non_ascii_run (py " ") text in
  let text := strip (re_sub whitespace_run (py " ") text) in
  build_prompt text.

Definition summarize_with_gemini (db : unicode_db) (svc : services) (text : pystr)
  : M dict :=
  let prompt := prompt_for text in
  response_text <- call (GenerateContent model_name prompt)
                        (generate_content svc model_name prompt) ;;
  content <- match response_text with
             | Some t => ret (strip t)
             | None => raise (Exception (py "'NoneType' object has no attribute 'strip'"))
             end ;;
  try_except (decode_json svc content)
             (fun _ => ret (decode_pairs db content)).

(** ** Bold spans ([apply_bold_markdown], lines 207-215) *)

Definition plain_font : font :=
  {| font_bold := None; font_size := None; font_name := None; font_rgb := None |}.

Definition empty_paragraph : paragraph := {| runs := []; space_after := None |}.

Definition set_bold (b : bool) (f : font) : font :=
  {| font_bold := Some b; font_size := font_size f;
     font_name := font_name f; font_rgb := font_rgb f |}.
Definition set_size (n : Z) (f : font) : font :=
  {| font_bold := font_bold f; font_size := Some n;
     font_name := font_name f; font_rgb := font_rgb f |}.
Definition set_name (n : pystr) (f : font) : font :=
  {| font_bold := font_bold f; font_size := font_size f;
     font_name := Some n; font_rgb := font_rgb f |}.
Definition set_rgb (c : Z * Z * Z) (f : font) : font :=
  {| font_bold := font_bold f; font_size := font_size f;
     font_name := font_name f; font_rgb := Some c |}.

(** The pattern of line 208: two stars, a lazy run of any characters but
    the newline, two stars; one group around the whole. *)
Definition bold_span : regex :=
  seqs [lits (py "**"); lazy_star any_char; lits (py "**")].
Definition bold_pattern : regex := Group 1 bold_span.

Definition bold_run (t : pystr) : run :=
  {| run_text := t; run_font := set_bold true plain_font |}.

(** [run.text = s] in python-pptx.  The text goes into the XML of the
    slide.  Every control character other than the tab and the newline is
    first replaced by seven characters, an underscore, the letter x, the
    code point in four upper-case hexadecimal digits and an underscore.
    The XML library then refuses, with a [ValueError], a text that holds a
    character XML cannot carry: a surrogate, U+FFFE or U+FFFF.  (The text
    of the exception is the library's and differs between the cases; only
    the fact that the assignment raises is used below.) *)
Definition is_control (c : char) : bool := in_range 0 8 c || in_range 11 31 c.

Definition hex_digit (n : N) : char :=
  if (n <? 10)%N then (48 + n)%N else (55 + n)%N.

Definition escape_char (c : char) : pystr :=
  if is_control c
  then py "_x"
       ++ map hex_digit [(c / 4096) mod 16; (c / 256) mod 16; (c / 16) mod 16; c mod 16]%N
       ++ py "_"
  else [c].

Definition escape_ctrl_chars (s : pystr) : pystr := flat_map escape_char s.

Definition xml_compatible (c : char) : bool :=
  negb (in_range 55296 57343 c || in_range 65534 65535 c).

Definition xml_error : exn := Exception (py "All strings must be XML compatible").

Definition set_run_text (s : pystr) : outcome pystr :=
  let t := escape_ctrl_chars s in
  if forallb xml_compatible t then Ret t else Raise xml_error.

(** The run that the loop body adds for one piece of the split. *)
Definition run_of_part (part : pystr) : outcome run :=
  if startswith part (py "**") && endswith part (py "**")
  then and_then (set_run_text (slice_2_m2 part)) (fun t => Ret (bold_run t))
  else and_then (set_run_text part)
                (fun t => Ret {| run_text := t; run_font := plain_font |}).

Definition add_run (p : paragraph) (r : run) : paragraph :=
  {| runs := runs p ++ [r]; space_after := space_after p |}.

Definition apply_bold_markdown (p : paragraph) (text : pystr) : outcome paragraph :=
  for_each (fun p part => and_then (run_of_part part) (fun r => Ret (add_run p r)))
           (re_split bold_pattern text) p.

(** ** Font sizing ([auto_fit_text], lines 218-233) *)

Definition paragraph_text (p : paragraph) : pystr := concat (map run_text (runs p)).

Definition frame_text (ps : list paragraph) : pystr :=
  join [NL] (map paragraph_text ps).

(** [shape.text] *)
Definition shape_text (sh : shape) : pystr := frame_text (paragraphs sh).

(** [int(x)] for a finite float: truncation towards zero.  (Python raises
    on an infinity or a NaN; the product of line 230 is neither, as an
    [int] too large for a float has raised before.) *)
Definition py_int (x : float) : Z :=
  match Prim2SF x with
  | S754_finite neg m e =>
      let mag := if (0 <=? e)%Z then Z.shiftl (Zpos m) e
                 else Z.shiftr (Zpos m) (- e) in
      if neg then (- mag)%Z else mag
  | _ => 0%Z
  end.

(** The float nearest to an [int] (ties to even), as Python takes it when an
    [int] meets a float in a product; an infinity stands for an [int] too
    large for a float, where Python raises an [OverflowError]. *)
Definition float_of_int (z : Z) : float :=
  SF2Prim (binary_normalize prec emax z 0 false).

Definition float_overflows (z : Z) : bool := PrimFloat.is_infinity (float_of_int z).

Definition total_chars (ps : list paragraph) : Z :=
  fold_right Z.add 0%Z (map (fun p => Z.of_nat (length (paragraph_text p))) ps).

Definition shrink_factor (total : Z) : float :=
  let f := 1.0%float in
  let f := if (800 <? total)%Z then 0.9%float else f in
  let f := if (1200 <? total)%Z then 0.8%float else f in
  let f := if (1600 <? total)%Z then 0.7%float else f in
  f.

(** Line 230, for a bound that fits a float. *)
Definition fitted_size (max_size min_size total : Z) : Z :=
  Z.max min_size (py_int (PrimFloat.mul (float_of_int max_size) (shrink_factor total))).

Definition nonempty_list {A} (l : list A) : bool :=
  match l with [] => false | _ :: _ => true end.

Definition map_runs (g : run -> run) (ps : list paragraph) : list paragraph :=
  map (fun p => {| runs := map g (runs p); space_after := space_after p |}) ps.

Definition with_paragraphs (sh : shape) (ps : list paragraph) : shape :=
  {| has_text_frame := has_text_frame sh; paragraphs := ps;
     word_wrap := word_wrap sh; vertical_anchor := vertical_anchor sh |}.

(** The sizes that [run.font.size = Pt(n)] accepts: the XML attribute holds
    hundredths of a point, from 100 to 400000, so 1 to 4000 points; any
    other size raises a [ValueError]. *)
Definition accepted_size (n : Z) : bool := (1 <=? n)%Z && (n <=? 4000)%Z.

(** The inner loop of lines 231-233 is entered at all. *)
Definition has_runs (ps : list paragraph) : bool :=
  existsb (fun p => nonempty_list (runs p)) ps.

Definition auto_fit_text (sh : shape) (max_size min_size : Z) : outcome shape :=
  if negb (has_text_frame sh)                     (* tf = shape.text_frame *)
  then Raise (Exception (py "object has no attribute 'text_frame'"))
  else if float_overflows max_size                (* max_size * shrink_factor *)
  then Raise (Exception (py "int too large to convert to float"))
  else
    let font_size := fitted_size max_size min_size (total_chars (paragraphs sh)) in
    if has_runs (paragraphs sh) && negb (accepted_size font_size)
    then Raise (Exception (py "value must be in range 100 to 400000 inclusive"))
    else Ret (with_paragraphs sh
                (map_runs (fun r => {| run_text := run_text r;
                                       run_font := set_size font_size (run_font r) |})
                          (paragraphs sh))).

(** ** Template filling ([fill_ppt_template], lines 236-271) *)

(** f"{{{{{key.upper()}}}}}" *)
Definition placeholder (db : unicode_db) (key : pystr) : pystr :=
  py "{{" ++ uni_upper db key ++ py "}}".

(** [tf.clear()]: all paragraphs but the first go, and the first loses its
    runs. *)
Definition tf_clear (ps : list paragraph) : list paragraph :=
  match ps with
  | [] => []
  | p :: _ => [{| runs := []; space_after := space_after p |}]
  end.

Definition white_keys : list pystr :=
  [py "name"; py "role"; py "location"; py "education_and_certification"].

Definition key_rgb (key : pystr) : Z * Z * Z :=
  if existsb (str_eqb key) white_keys then (255, 255, 255)%Z else (40, 40, 40)%Z.

(** [p = tf.add_paragraph(); apply_bold_markdown(p, line); p.space_after = Pt(4)] *)
Definition add_line (ps : list paragraph) (line : pystr) : outcome (list paragraph) :=
  and_then (apply_bold_markdown empty_paragraph line)
           (fun p => Ret (ps ++ [{| runs := runs p; space_after := Some 4%Z |}])).

(** The body of [if placeholder in shape.text:] (lines 249-269). *)
Definition rewrite_shape (key new_text : pystr) (sh : shape) : outcome shape :=
  let ps := [empty_paragraph] in                      (* shape.text = "" *)
  let ps := tf_clear ps in
  and_then (for_each add_line (split_on NL new_text) ps) (fun ps =>
  let ps := map_runs (fun r => {| run_text := run_text r;
                                  run_font := set_rgb (key_rgb key)
                                                (set_name (py "Aptos") (run_font r)) |})
                     ps in
  auto_fit_text
    {| has_text_frame := has_text_frame sh; paragraphs := ps;
       word_wrap := Some true; vertical_anchor := Some TOP |}
    11 9).

(** The loop over [data.items()] for one shape.  [str.replace] raises a
    TypeError when the value is not a string, and an exception of the
    rewriting ends the loop. *)
Fixpoint fill_items (db : unicode_db) (items : dict) (sh : shape) : outcome shape :=
  match items with
  | [] => Ret sh
  | (key, val) :: rest =>
      if contains (shape_text sh) (placeholder db key) then
        match val with
        | JStr v =>
            and_then
              (rewrite_shape key (str_replace (shape_text sh) (placeholder db key) v) sh)
              (fill_items db rest)
        | _ => Raise (Exception (py "replace() argument 2 must be str"))
        end
      else fill_items db rest sh
  end.

Definition fill_shape (db : unicode_db) (data : dict) (sh : shape) : outcome shape :=
  if has_text_frame sh then fill_items db data sh else Ret sh.

Fixpoint map_outcome {A B} (g : A -> outcome B) (l : list A) : outcome (list B) :=
  match l with
  | [] => Ret []
  | a :: l' =>
      match g a with
      | Raise e => Raise e
      | Ret b =>
          match map_outcome g l' with
          | Raise e => Raise e
          | Ret bs => Ret (b :: bs)
          end
      end
  end.

Definition fill_slides (db : unicode_db) (data : dict) (prs : presentation)
  : outcome presentation :=
  map_outcome (map_outcome (fill_shape db data)) prs.

Record pptx_lib := {
  Presentation : pystr -> outcome presentation;
  prs_save : presentation -> pystr -> outcome unit
}.

Definition fill_ppt_template (db : unicode_db) (P : pptx_lib)
    (template_path : pystr) (data : dict) (output_path : pystr) : M unit :=
  prs <- call (PptxOpen template_path) (Presentation P template_path) ;;
  prs <- ([], fill_slides db data prs) ;;
  call (PptxSave prs output_path) (prs_save P prs output_path).

(** ** The pipeline (lines 291-295) *)

Definition pipeline (db : unicode_db) (L : libs) (svc : services) (P : pptx_lib)
    (input_path template_path output_path : pystr) : M unit :=
  text <- extract_text db L input_path ;;
  data <- summarize_with_gemini db svc text ;;
  fill_ppt_template db P template_path data output_path.

(** The presentation that a run handed to [prs.save], if it came to that. *)
Fixpoint saved_presentation (evs : list event) : option presentation :=
  match evs with
  | [] => None
  | PptxSave prs _ :: _ => Some prs
  | _ :: evs' => saved_presentation evs'
  end.

(** ** The specification's wording, for comparison *)

(** The eight fields the prompt asks for. *)
Definition eight_fields : list pystr :=
  [py "name"; py "role"; py "location"; py "profile_overview";
   py "professional_experience"; py "skills"; py "domain_experience";
   py "education_and_certification"].

Definition mem (k : pystr) (l : list pystr) : bool := existsb (str_eqb k) l.

(** Two key lists hold the same keys. *)
Definition same_keys (a b : list pystr) : bool :=
  forallb (fun k => mem k b) a && forallb (fun k => mem k a) b.

(** The shrink factor as the specification words it: 1.0, 0.9, 0.8 or 0.7
    according to the largest of 800, 1200, 1600 that the count exceeds. *)
Definition spec_factor (total : Z) : float :=
  if (1600 <? total)%Z then 0.7%float
  else if (1200 <? total)%Z then 0.8%float
  else if (800 <? total)%Z then 0.9%float
  else 1.0%float.

(** No newline in a string. *)
Definition single_line (s : pystr) : bool :=
  forallb (fun c => negb (char_eqb c NL)) s.

(** The keys of the mapping a run returned (none when it raised). *)
Definition result_keys (m : M dict) : list pystr :=
  match result m with
  | Ret d => keys d
  | Raise _ => []
  end.

(** The returned value as the specification words it: when [json.loads]
    succeeds, the parsed value with its string values unescaped; when it
    raises, the mapping of the pairs found by the pattern. *)
Definition spec_decode (db : unicode_db) (svc : services) (content : pystr) : json :=
  match json_loads svc content with
  | Ret (JObj d) => JObj (map (fun kv => (fst kv, unescape_value (snd kv))) d)
  | Ret parsed => parsed
  | Raise _ => JObj (decode_pairs db content)
  end.

(** The value a run returned, as a JSON value. *)
Definition returned (m : M dict) : option json :=
  match result m with
  | Ret d => Some (JObj d)
  | Raise _ => None
  end.


(** ** Sample environments

    Concrete answers of the libraries, for the examples below.  All texts
    are ASCII, where [ascii_db] agrees with the tables of the runtime. *)




(** A model service that answers [text], with [parsed] what [json.loads]
    makes of that answer. *)
Definition service_answering (text : pystr) (parsed : outcome json) : services := {|
  generate_content := fun _ _ => Ret (Some text);
  json_loads := fun c => if str_eqb c text then parsed
                         else Raise (Exception (py "Expecting value"))
|}.

(** The answer [[{"name": "Ann"}]]: an object wrapped in a list. *)
Definition answer_in_list : pystr :=
  py "[{" ++ dq ++ py "name" ++ dq ++ py ": " ++ dq ++ py "Ann" ++ dq ++ py "}]".
Definition parsed_in_list : json := JArr [JObj [(py "name", JStr (py "Ann"))]].

(** The answer [{"name": "Ann"}]: an object with one of the eight keys. *)
Definition answer_one_key : pystr :=
  py "{" ++ dq ++ py "name" ++ dq ++ py ": " ++ dq ++ py "Ann" ++ dq ++ py "}".
Definition parsed_one_key : json := JObj [(py "name", JStr (py "Ann"))].

(** A text box: a shape with a text frame of one paragraph with one run. *)
Definition text_box (t : pystr) : shape := {|
  has_text_frame := true;
  paragraphs := [{| runs := [{| run_text := t; run_font := plain_font |}];
                    space_after := None |}];
  word_wrap := None;
  vertical_anchor := None
|}.

(** A picture: a shape without a text frame. *)
Definition picture : shape := {|
  has_text_frame := false; paragraphs := [];
  word_wrap := None; vertical_anchor := None
|}.

Definition sample_pptx (prs : presentation) : pptx_lib := {|
  Presentation := fun _ => Ret prs;
  prs_save := fun _ _ => Ret tt
|}.

(** The texts of the runs of a shape that are set bold. *)
Definition bold_texts (sh : shape) : list pystr :=
  map run_text
    (filter (fun r => match font_bold (run_font r) with Some true => true | _ => false end)
            (concat (map runs (paragraphs sh)))).

(** A shape that [fill_ppt_template] has no reason to rewrite: it has no
    text frame, or its text holds the placeholder of no key of the data. *)
Definition untouched (db : unicode_db) (data : dict) (sh : shape) : bool :=
  negb (has_text_frame sh) ||
  forallb (fun kv => negb (contains (shape_text sh) (placeholder db (fst kv)))) data.

(** All runs of a shape have font size [n]. *)
Definition all_sized (n : Z) (sh : shape) : Prop :=
  Forall (fun p => Forall (fun r => font_size (run_font r) = Some n) (runs p))
         (paragraphs sh).

(** The run [r'] is the run [r] at [n] points: the same text, and the same
    bold, font name and colour. *)
Definition resized_run (n : Z) (r r' : run) : Prop :=
  run_text r' = run_text r /\
  font_size (run_font r') = Some n /\
  font_bold (run_font r') = font_bold (run_font r) /\
  font_name (run_font r') = font_name (run_font r) /\
  font_rgb (run_font r') = font_rgb (run_font r).

(** The shape [sh'] is the shape [sh] with every run at [n] points: the
    same frame settings, the same paragraphs with the same spacing, and in
    each paragraph the same runs, one for one, resized. *)
Definition resized (n : Z) (sh sh' : shape) : Prop :=
  has_text_frame sh' = has_text_frame sh /\
  word_wrap sh' = word_wrap sh /\
  vertical_anchor sh' = vertical_anchor sh /\
  Forall2 (fun p p' => space_after p' = space_after p /\
                       Forall2 (resized_run n) (runs p) (runs p'))
          (paragraphs sh) (paragraphs sh').

(** A text without a character that XML refuses: [run.text] takes it. *)
Definition storable (s : pystr) : bool := forallb xml_compatible s.

(** A text without a control character that [run.text] would escape. *)
Definition no_control (s : pystr) : bool := forallb (fun c => negb (is_control c)) s.

(** The run that holds a piece of the split once its text is stored: bold
    and without the stars for a piece that starts and ends with two stars,
    plain otherwise, the control characters escaped. *)
Definition stored_run (part : pystr) : run :=
  if startswith part (py "**") && endswith part (py "**")
  then bold_run (escape_ctrl_chars (slice_2_m2 part))
  else {| run_text := escape_ctrl_chars part; run_font := plain_font |}.

(** The paragraph that the rewriting adds for one line. *)
Definition rendered_line (line : pystr) : paragraph :=
  {| runs := map stored_run (re_split bold_pattern line); space_after := Some 4%Z |}.

(** Every group of a match consists of characters that pass [q]. *)
Definition captures_all (q : char -> bool) (c : caps) : Prop :=
  Forall (fun it => forallb q (snd it) = true) c.

(** Every string value of the mapping can be stored in a run. *)
Definition storable_values (d : dict) : bool :=
  forallb (fun kv => match snd kv with JStr v => storable v | _ => true end) d.

(** The text of every shape of the presentation can be stored in a run (as
    is the case for a presentation read from a file). *)
Definition storable_presentation (prs : presentation) : bool :=
  forallb (forallb (fun sh => storable (shape_text sh))) prs.

(** ** Further vocabulary for the properties *)

(** [s] without its longest prefix of characters that satisfy [p]. *)
Fixpoint drop_while (p : char -> bool) (s : pystr) : pystr :=
  match s with
  | [] => []
  | c :: s' => if p c then drop_while p s' else s
  end.

(** The character [c] does not occur in [s]. *)
Definition lacks (c : char) (s : pystr) : bool :=
  forallb (fun x => negb (char_eqb x c)) s.

(** No two neighbours in [s] both satisfy [p]. *)
Fixpoint no_double (p : char -> bool) (s : pystr) : bool :=
  match s with
  | [] => true
  | x :: t =>
      match t with
      | y :: _ => negb (p x && p y)
      | [] => true
      end && no_double p t
  end.

(** The first character of [s], when there is one, does not satisfy [p]. *)
Definition first_not (p : char -> bool) (s : pystr) : bool :=
  match s with
  | [] => true
  | c :: _ => negb (p c)
  end.

Definition is_ascii (c : char) : bool := in_range 0 127 c.

(** The resume text as it stands in the prompt (lines 136-137). *)
Definition resume_in_prompt (text : pystr) : pystr :=
  strip (re_sub whitespace_run (py " ") (re_sub non_ascii_run (py " ") text)).

(** A pattern that matches wherever a character satisfying [p] stands. *)
Definition covers (r : regex) (p : char -> bool) : Prop :=
  forall x s, p x = true -> exists n g, match_at r (x :: s) = Some (S n, g).

(** A call of [page.extract_text]. *)
Definition is_page_extract (ev : event) : bool :=
  match ev with PageExtract _ => true | _ => false end.

(** A section whose header and footer can be read. *)
Definition section_readable (sec : docx_section) : bool :=
  match header_paragraphs sec, footer_paragraphs sec with
  | Ret _, Ret _ => true
  | _, _ => false
  end.

(** A section whose header or footer raises when read. *)
Definition section_fails (sec : docx_section) : bool := negb (section_readable sec).

(** The header and footer texts that are kept of a readable section. *)
Definition section_kept (sec : docx_section) : list pystr :=
  match header_paragraphs sec, footer_paragraphs sec with
  | Ret h, Ret f => keep_nonblank h ++ keep_nonblank f
  | Ret h, Raise _ => keep_nonblank h
  | Raise _, _ => []
  end.

(** [d.get(k)]. *)
Fixpoint dict_get (d : dict) (k : pystr) : option json :=
  match d with
  | [] => None
  | (k', v) :: d' => if str_eqb k k' then Some v else dict_get d' k
  end.

(** Every value of the mapping is a string. *)
Definition all_strings (d : dict) : bool :=
  forallb (fun kv => match snd kv with JStr _ => true | _ => false end) d.

(** The last of the matches whose group 1 is [k]. *)
Definition last_pair (ms : list caps) (k : pystr) : option caps :=
  find (fun g => str_eqb k (group g 1)) (rev ms).

(** Two presentations with the same slides and shapes as far as having a
    text frame goes. *)
Definition same_layout (prs prs' : presentation) : Prop :=
  Forall2 (Forall2 (fun sh sh' => has_text_frame sh' = has_text_frame sh)) prs prs'.

(** The formatting of lines 253-269 on one run. *)
Definition run_formatted (r : run) : Prop :=
  font_name (run_font r) = Some (py "Aptos") /\
  (font_size (run_font r) = Some 9%Z \/ font_size (run_font r) = Some 11%Z) /\
  (font_rgb (run_font r) = Some (255, 255, 255)%Z \/
   font_rgb (run_font r) = Some (40, 40, 40)%Z).

(** A text box as the rewriting leaves it: wrapped, anchored at the top, an
    empty paragraph first, then paragraphs spaced by 4 points, all runs
    formatted. *)
Definition formatted (sh : shape) : Prop :=
  word_wrap sh = Some true /\
  vertical_anchor sh = Some TOP /\
  (exists ps, paragraphs sh = empty_paragraph :: ps /\
              Forall (fun p => space_after p = Some 4%Z) ps) /\
  Forall run_formatted (concat (map runs (paragraphs sh))).

(** A shape with the font sizes of its runs forgotten. *)
Definition erase_sizes (sh : shape) : shape :=
  with_paragraphs sh
    (map_runs (fun r => {| run_text := run_text r;
                           run_font := {| font_bold := font_bold (run_font r);
                                          font_size := None;
                                          font_name := font_name (run_font r);
                                          font_rgb := font_rgb (run_font r) |} |})
              (paragraphs sh)).

(** A text box that holds just the paragraph [p]. *)
Definition text_box_of (p : paragraph) : shape := {|
  has_text_frame := true; paragraphs := [p];
  word_wrap := None; vertical_anchor := None
|}.

(** * Properties *)

(** ** Strings *)

Lemma char_eqb_eq (a b : char) : char_eqb a b = true <-> a = b.
Proof. apply N.eqb_eq. Qed.

Lemma str_eqb_eq (a b : pystr) : str_eqb a b = true <-> a = b.
Proof.
  revert b; induction a as [|x a IH]; intros [|y b]; simpl;
    try (split; [discriminate | congruence]); try tauto.
  rewrite andb_true_iff, char_eqb_eq, IH.
  split; [intros [-> ->]; reflexivity | intros E; inversion E; auto].
Qed.

Lemma str_eqb_refl (a : pystr) : str_eqb a a = true.
Proof. apply str_eqb_eq; reflexivity. Qed.

Lemma single_line_app (a b : pystr) :
  single_line (a ++ b) = single_line a && single_line b.
Proof. apply forallb_app. Qed.

Lemma single_line_rev (s : pystr) : single_line (rev s) = single_line s.
Proof.
  induction s as [|c s IH]; simpl; [reflexivity|].
  rewrite single_line_app, IH; simpl.
  rewrite andb_true_r; apply andb_comm.
Qed.

Lemma single_line_lstrip (s : pystr) :
  single_line s = true -> single_line (lstrip s) = true.
Proof.
  induction s as [|c s IH]; simpl; [auto|].
  intros H; apply andb_true_iff in H as [Hc Hs].
  destruct (is_space c); [auto | simpl; rewrite Hc, Hs; reflexivity].
Qed.

Lemma single_line_strip (s : pystr) :
  single_line s = true -> single_line (strip s) = true.
Proof.
  intros H; unfold strip, rstrip.
  rewrite single_line_rev; apply single_line_lstrip.
  rewrite single_line_rev; apply single_line_lstrip, H.
Qed.

(** A string without a newline is one line for [split]. *)
Lemma split_on_single_line (s : pystr) :
  single_line s = true -> split_on NL s = [s].
Proof.
  induction s as [|c s IH]; simpl; [reflexivity|].
  intros H; apply andb_true_iff in H as [Hc Hs].
  apply negb_true_iff in Hc; rewrite Hc, (IH Hs); reflexivity.
Qed.

(** [lstrip] removes a prefix of white space. *)
Lemma lstrip_split (s : pystr) :
  exists pre, s = pre ++ lstrip s /\ forallb is_space pre = true.
Proof.
  induction s as [|c s [pre [E Hpre]]]; simpl.
  - exists []; auto.
  - destruct (is_space c) eqn:Hc.
    + exists (c :: pre); simpl; rewrite Hc, Hpre.
      split; [f_equal; exact E | reflexivity].
    + exists []; auto.
Qed.

Lemma head_ok_lstrip (s : pystr) : head_ok (lstrip s) = true.
Proof.
  induction s as [|c s IH]; simpl; [reflexivity|].
  destruct (is_space c) eqn:Hc; [exact IH | simpl; rewrite Hc; reflexivity].
Qed.

Lemma lstrip_head_ok (s : pystr) : head_ok s = true -> lstrip s = s.
Proof.
  destruct s as [|c s]; simpl; [reflexivity|].
  intros H; apply negb_true_iff in H; rewrite H; reflexivity.
Qed.

Lemma head_ok_rstrip (s : pystr) : head_ok s = true -> head_ok (rstrip s) = true.
Proof.
  intros H; unfold rstrip.
  destruct (lstrip_split (rev s)) as [pre [E _]].
  apply (f_equal (@rev char)) in E; rewrite rev_involutive, rev_app_distr in E.
  destruct (rev (lstrip (rev s))) as [|c w]; [reflexivity|].
  rewrite E in H; exact H.
Qed.

Lemma rstrip_last_ok (s : pystr) : head_ok (rev (rstrip s)) = true.
Proof. unfold rstrip; rewrite rev_involutive; apply head_ok_lstrip. Qed.

Lemma rstrip_fixed (s : pystr) : head_ok (rev s) = true -> rstrip s = s.
Proof.
  intros H; unfold rstrip; rewrite (lstrip_head_ok _ H); apply rev_involutive.
Qed.

(** [strip] is idempotent. *)
Lemma strip_idem (s : pystr) : strip (strip s) = strip s.
Proof.
  unfold strip at 1.
  rewrite (lstrip_head_ok (strip s)).
  - apply rstrip_fixed; unfold strip; apply rstrip_last_ok.
  - unfold strip; apply head_ok_rstrip, head_ok_lstrip.
Qed.

(** ** The matcher *)

(** Soundness of the matcher: a successful match splits the text into a
    word of the pattern and a rest that the continuation accepts. *)
Lemma rmatch_sound (r : regex) :
  forall s c k res, rmatch r s c k = Some res ->
    exists pre s' c', s = pre ++ s' /\ lang r pre /\ k s' c' = Some res.
Proof.
  induction r as [|p|r1 IH1 r2 IH2|g r1 IH1|i r1 IH1|r1 IH1]; intros s c k res H;
    cbn [rmatch] in H.
  - exists [], s, c; cbn; auto.
  - destruct s as [|x s']; [discriminate|].
    destruct (p x) eqn:Hp; [|discriminate].
    exists [x], s', c; cbn; eauto.
  - apply IH1 in H as (pre1 & s1 & c1 & -> & L1 & H).
    apply IH2 in H as (pre2 & s2 & c2 & -> & L2 & H).
    exists (pre1 ++ pre2), s2, c2; rewrite app_assoc; cbn; eauto 7.
  - assert (Hloop : forall n s c, star_loop (rmatch r1) g k n s c = Some res ->
              exists ws s' c', s = concat ws ++ s' /\ Forall (lang r1) ws /\
                               k s' c' = Some res).
    { induction n as [|n IHn]; intros s0 c0 H0; simpl in H0.
      - exists [], s0, c0; auto.
      - assert (Hmore : forall x,
                  rmatch r1 s0 c0
                    (fun s' c' => if (length s' <? length s0)%nat
                                  then star_loop (rmatch r1) g k n s' c' else None)
                  = Some x -> x = res ->
                  exists ws s' c', s0 = concat ws ++ s' /\ Forall (lang r1) ws /\
                                   k s' c' = Some res).
        { intros x E ->.
          apply IH1 in E as (pre1 & s1 & c1 & -> & L1 & E).
          destruct (length s1 <? length (pre1 ++ s1))%nat; [|discriminate].
          apply IHn in E as (ws & s2 & c2 & -> & Lws & E).
          exists (pre1 :: ws), s2, c2; cbn [concat]; rewrite app_assoc; auto. }
        destruct g.
        + destruct (rmatch r1 s0 c0 _) as [x|] eqn:E.
          * inversion H0; subst x; eapply Hmore; eauto.
          * exists [], s0, c0; auto.
        + destruct (k s0 c0) as [x|] eqn:Ek.
          * inversion H0; subst x; exists [], s0, c0; auto.
          * eapply Hmore; eauto. }
    apply Hloop in H as (ws & s' & c' & -> & Lws & H).
    exists (concat ws), s', c'; cbn; eauto.
  - apply IH1 in H as (pre & s' & c' & -> & L1 & H).
    eexists pre, s', _; cbn; eauto.
  - destruct (rmatch r1 s c _); [|discriminate].
    exists [], s, c; cbn; auto.
Qed.

(** A greedy repetition cannot fail when what follows it cannot. *)
Lemma star_greedy_total (r1 : regex) (s : pystr) (c : caps)
    (k : cont) :
  (forall s' c', k s' c' <> None) -> rmatch (Star true r1) s c k <> None.
Proof.
  intros Hk; cbn [rmatch star_loop].
  destruct (rmatch r1 s c _); [discriminate | apply Hk].
Qed.

(** What [match_at] reports is a split of the text. *)
Lemma match_at_length (r : regex) (s : pystr) (n : nat) (c : caps) :
  match_at r s = Some (n, c) -> (n <= length s)%nat.
Proof.
  unfold match_at; destruct (rmatch r s [] _) as [[s' c']|]; [|discriminate].
  intros E; inversion E; lia.
Qed.

(** The pattern [c+] matches at least one character wherever a [c] stands. *)
Lemma plus_lit_matches (x : char) (s : pystr) :
  exists n c, match_at (plus (lit x)) (x :: s) = Some (S n, c).
Proof.
  unfold match_at, plus, lit.
  remember (Star true (Chr (char_eqb x))) as R eqn:ER.
  cbn [rmatch]; unfold char_eqb at 1; rewrite N.eqb_refl.
  destruct (rmatch R s [] (fun s' c => Some (s', c))) as [[s' c']|] eqn:E.
  - apply rmatch_sound in E as (pre & s2 & c2 & -> & _ & E).
    inversion E; subst s' c'.
    exists (length pre), c2; f_equal; f_equal.
    change (length (x :: pre ++ s2)) with (S (length (pre ++ s2))).
    rewrite length_app; lia.
  - exfalso; subst R; revert E; apply star_greedy_total; discriminate.
Qed.

(** ** Substitution *)

(** [re.sub] writes only characters of the replacement and of the text. *)
Lemma sub_go_single_line (r : regex) (repl : pystr) :
  single_line repl = true ->
  forall s skip, single_line s = true -> single_line (sub_go r repl skip s) = true.
Proof.
  intros Hr; induction s as [|c s IH]; intros skip H; simpl; [reflexivity|].
  simpl in H; apply andb_true_iff in H as [Hc Hs].
  destruct skip as [|k]; [|auto].
  destruct (match_at r (c :: s)) as [[[|n] g]|]; simpl;
    rewrite ?single_line_app, ?Hr, ?Hc, ?IH; auto.
Qed.

Lemma re_sub_single_line (r : regex) (repl s : pystr) :
  single_line repl = true -> single_line s = true ->
  single_line (re_sub r repl s) = true.
Proof. intros; apply sub_go_single_line; assumption. Qed.

(** Replacing [\n+] leaves no newline. *)
Lemma sub_newlines_single_line (repl : pystr) :
  single_line repl = true ->
  forall s skip, single_line (sub_go (plus (lit NL)) repl skip s) = true.
Proof.
  intros Hr; induction s as [|c s IH]; intros skip; simpl sub_go; [reflexivity|].
  destruct skip as [|k]; [|apply IH].
  destruct (char_eqb c NL) eqn:Hc.
  - apply char_eqb_eq in Hc; subst c.
    destruct (plus_lit_matches NL s) as (n & g & ->).
    rewrite single_line_app, Hr, IH; reflexivity.
  - destruct (match_at (plus (lit NL)) (c :: s)) as [[[|n] g]|]; simpl;
      rewrite ?single_line_app, ?Hr, ?Hc, ?IH; reflexivity.
Qed.

Lemma fold_sub_single_line (repl : pystr) (pats : list regex) :
  single_line repl = true ->
  forall t, single_line t = true ->
    single_line (fold_left (fun t p => re_sub p repl t) pats t) = true.
Proof.
  intros Hr; induction pats as [|p pats IH]; intros t Ht; simpl; [exact Ht|].
  apply IH, re_sub_single_line; assumption.
Qed.

(** After the white-space pass no newline is left, whatever came in. *)
Lemma whitespace_pass_single_line (t : pystr) :
  single_line (fold_left (fun t p => re_sub p (py " ") t) whitespace_patterns t) = true.
Proof.
  unfold whitespace_patterns; cbn [fold_left].
  do 6 (apply re_sub_single_line; [reflexivity|]).
  unfold re_sub; apply (sub_newlines_single_line (py " ")); reflexivity.
Qed.

Lemma clean_text_passes_single_line (db : unicode_db) (text : pystr) :
  single_line (clean_text_passes db text) = true.
Proof.
  unfold clean_text_passes.
  apply single_line_strip, re_sub_single_line; [reflexivity|].
  apply fold_sub_single_line; [reflexivity|].
  apply whitespace_pass_single_line.
Qed.

(** On a single stripped line the duplicate-line loop changes nothing. *)
Lemma unique_lines_one (u : pystr) :
  join [NL] (unique_lines [] [strip u]) = strip u.
Proof.
  cbn [unique_lines existsb negb].
  rewrite strip_idem, andb_true_r.
  destruct (strip u) as [|c w]; reflexivity.
Qed.

(** The duplicate-line step returns its input. *)
Lemma clean_text_passes_kept (db : unicode_db) (text : pystr) :
  clean_text db text = clean_text_passes db text.
Proof.
  unfold clean_text.
  rewrite (split_on_single_line _ (clean_text_passes_single_line db text)).
  unfold clean_text_passes; apply unique_lines_one.
Qed.

(** ** Extraction *)

Lemma bind_result {A B} (m : M A) (f : A -> M B) :
  result (bind m f) =
  match result m with
  | Ret a => result (f a)
  | Raise e => Raise e
  end.
Proof.
  destruct m as [l [a|e]]; simpl; [|reflexivity].
  destruct (f a); reflexivity.
Qed.

Lemma bind_events {A B} (m : M A) (f : A -> M B) :
  events (bind m f) =
  match result m with
  | Ret a => events m ++ events (f a)
  | Raise e => events m
  end.
Proof.
  destruct m as [l [a|e]]; simpl; [|reflexivity].
  destruct (f a); reflexivity.
Qed.

Lemma try_except_result {A} (m : M A) (h : exn -> M A) :
  result (try_except m h) =
  match result m with
  | Ret a => Ret a
  | Raise e => result (h e)
  end.
Proof.
  destruct m as [l [a|e]]; simpl; [reflexivity|].
  destruct (h e); reflexivity.
Qed.

Lemma try_except_events {A} (m : M A) (h : exn -> M A) :
  events (try_except m h) =
  match result m with
  | Ret a => events m
  | Raise e => events m ++ events (h e)
  end.
Proof.
  destruct m as [l [a|e]]; simpl; [reflexivity|].
  destruct (h e); reflexivity.
Qed.

(** What the body returns went through [clean_text]. *)
Lemma extract_body_cleaned (db : unicode_db) (L : libs) (path s : pystr) :
  result (extract_body db L path) = Ret s -> exists t, s = clean_text db t.
Proof.
  unfold extract_body, pdf_branch, docx_branch.
  destruct (endswith _ _); rewrite bind_result; cbn [call result snd].
  - destruct (pdfplumber_open L path) as [pdf|]; [|discriminate].
    rewrite bind_result.
    destruct (result (pdf_pages pdf [])) as [t|]; [|discriminate].
    intros E; inversion E; eauto.
  - destruct (docx_Document L path) as [doc|]; [|discriminate].
    rewrite bind_result; cbn [result snd].
    destruct (doc_paragraphs doc); [|discriminate].
    rewrite bind_result; cbn [result snd].
    destruct (doc_tables doc); [|discriminate].
    intros E; inversion E; eauto.
Qed.

(** [extract_text] always returns a string: the body's, or the empty one. *)
Lemma extract_text_result (db : unicode_db) (L : libs) (path : pystr) :
  result (extract_text db L path) =
  match result (extract_body db L path) with
  | Ret s => Ret s
  | Raise _ => Ret []
  end.
Proof.
  unfold extract_text; rewrite try_except_result.
  destruct (result (extract_body db L path)); reflexivity.
Qed.

(** C8. [clean_text] returns a string without a newline: the white-space
    pass has replaced every run of newlines by a space before the
    duplicate-line step, which therefore sees one line and returns it as it
    is; and so what [extract_text] returns is always a single line. *)
Theorem clean_text_single_line (db : unicode_db) (text : pystr) :
  single_line (clean_text db text) = true /\
  split_on NL (clean_text_passes db text) = [clean_text_passes db text] /\
  clean_text db text = clean_text_passes db text /\
  forall (L : libs) (path : pystr),
    exists s, result (extract_text db L path) = Ret s /\ single_line s = true.
Proof.
  pose proof (clean_text_passes_single_line db) as Hp.
  repeat split.
  - rewrite clean_text_passes_kept; apply Hp.
  - apply split_on_single_line, Hp.
  - apply clean_text_passes_kept.
  - intros L path; rewrite extract_text_result.
    destruct (result (extract_body db L path)) as [s|e] eqn:E.
    + exists s; split; [reflexivity|].
      apply extract_body_cleaned in E as [t ->].
      rewrite clean_text_passes_kept; apply Hp.
    + exists []; split; reflexivity.
Qed.

(** The page loop talks to the PDF library only. *)
Lemma pdf_pages_events (pages : list pdf_page) :
  forall text, forallb is_pdf_event (events (pdf_pages pages text)) = true.
Proof.
  induction pages as [|page rest IH]; intros text; [reflexivity|].
  cbn [pdf_pages]; rewrite bind_events; cbn [call events result fst snd].
  destruct (page_extract_text page) as [t|]; [|reflexivity].
  rewrite forallb_app; cbn [forallb is_pdf_event andb].
  rewrite bind_events.
  destruct (needs_layout t); cbn [call ret events result fst snd].
  - destruct (page_extract_text_layout page) as [[[|c u]|]|];
      rewrite ?forallb_app, ?IH; reflexivity.
  - destruct t as [[|c u]|]; cbn [app]; apply IH.
Qed.

Lemma forallb_existsb_false {A} (p q : A -> bool) (l : list A) :
  (forall x, p x = true -> q x = false) ->
  forallb p l = true -> existsb q l = false.
Proof.
  intros Hpq; induction l as [|x l IH]; simpl; [reflexivity|].
  intros H; apply andb_true_iff in H as [Hx Hl].
  rewrite (Hpq x Hx), (IH Hl); reflexivity.
Qed.

(** The events of the PDF branch: the open, then page extractions. *)
Lemma pdf_branch_events (db : unicode_db) (L : libs) (path : pystr) :
  exists evs, events (pdf_branch db L path) = PdfOpen path :: evs /\
              forallb is_pdf_event evs = true.
Proof.
  unfold pdf_branch; rewrite bind_events; cbn [call events result fst snd].
  destruct (pdfplumber_open L path) as [pdf|]; [|exists []; auto].
  rewrite bind_events.
  exists (events (pdf_pages pdf [])); split; [|apply pdf_pages_events].
  destruct (result (pdf_pages pdf [])); cbn [ret events fst app];
    rewrite ?app_nil_r; reflexivity.
Qed.

(** The events of the Word branch: the open, and nothing else. *)
Lemma docx_branch_events (db : unicode_db) (L : libs) (path : pystr) :
  events (docx_branch db L path) = [DocxOpen path].
Proof.
  unfold docx_branch; rewrite bind_events; cbn [call events result fst snd].
  destruct (docx_Document L path) as [doc|]; [|reflexivity].
  rewrite bind_events; cbn [events result fst snd app].
  destruct (doc_paragraphs doc); [|reflexivity].
  rewrite bind_events; cbn [events result fst snd app].
  destruct (doc_tables doc); reflexivity.
Qed.

(** Each branch asks only its own library. *)
Lemma pdf_branch_own (db : unicode_db) (L : libs) (path : pystr) d' :
  pdf_branch db {| pdfplumber_open := pdfplumber_open L; docx_Document := d' |} path
  = pdf_branch db L path.
Proof. reflexivity. Qed.

Lemma docx_branch_own (db : unicode_db) (L : libs) (path : pystr) p' :
  docx_branch db {| pdfplumber_open := p'; docx_Document := docx_Document L |} path
  = docx_branch db L path.
Proof. reflexivity. Qed.

(** C5. [extract_text] takes the PDF branch exactly when the lower-cased
    path ends with ".pdf" and the Word branch for every other path; a run
    starts by opening the file with the library of its branch and never
    calls the other library, whose answers do not influence it. *)
Theorem extract_text_two_branches (db : unicode_db) (L : libs) (path : pystr) :
  let evs := events (extract_text db L path) in
  if endswith (uni_lower db path) (py ".pdf")
  then hd_error evs = Some (PdfOpen path) /\
       existsb is_docx_event evs = false /\
       forall d', extract_text db {| pdfplumber_open := pdfplumber_open L;
                                     docx_Document := d' |} path
                  = extract_text db L path
  else hd_error evs = Some (DocxOpen path) /\
       existsb is_pdf_event evs = false /\
       forall p', extract_text db {| pdfplumber_open := p';
                                     docx_Document := docx_Document L |} path
                  = extract_text db L path.
Proof.
  cbv zeta; unfold extract_text, extract_body.
  destruct (endswith (uni_lower db path) (py ".pdf")).
  - destruct (pdf_branch_events db L path) as (evs & E & Hevs).
    rewrite try_except_events, E.
    split; [|split].
    + destruct (result (pdf_branch db L path)); reflexivity.
    + assert (H : existsb is_docx_event evs = false).
      { revert Hevs; apply forallb_existsb_false; intros [] ?; auto; discriminate. }
      destruct (result (pdf_branch db L path)); cbn [existsb is_docx_event orb app];
        rewrite ?existsb_app, H; reflexivity.
    + intros d'; rewrite pdf_branch_own; reflexivity.
  - rewrite try_except_events, docx_branch_events.
    split; [|split].
    + destruct (result (docx_branch db L path)); reflexivity.
    + destruct (result (docx_branch db L path)); reflexivity.
    + intros p'; rewrite docx_branch_own; reflexivity.
Qed.

(** ** Values and keys of the decoded mapping *)

(** After [replace] no backslash-n is left: the newline written for an
    occurrence cannot be part of a new one. *)
Lemma replace_go_no_escape :
  forall s skip, contains (replace_go [92; 110]%N [NL] skip s) [92; 110]%N = false.
Proof.
  induction s as [|a s IH]; intros skip; cbn [replace_go]; [reflexivity|].
  destruct skip as [|k]; [|apply IH].
  destruct (is_prefix [92; 110]%N (a :: s)) eqn:P.
  - cbn [length Nat.sub app contains is_prefix]; rewrite IH; reflexivity.
  - cbn [contains]; rewrite IH, orb_false_r.
    cbn [is_prefix] in *.
    destruct (char_eqb 92%N a); [|reflexivity].
    cbn [andb] in *.
    destruct s as [|d s']; [reflexivity|].
    cbn [replace_go].
    destruct (is_prefix [92; 110]%N (d :: s')); [reflexivity|].
    exact P.
Qed.

Lemma is_prefix_app (sub l post : pystr) :
  is_prefix sub l = true -> is_prefix sub (l ++ post) = true.
Proof.
  revert l; induction sub as [|x sub IH]; intros [|y l]; cbn; auto; try discriminate.
  intros H; apply andb_true_iff in H as [-> H]; cbn; auto.
Qed.

(** A text without an occurrence has none in its parts. *)
Lemma contains_false_suffix (sub pre s : pystr) :
  contains (pre ++ s) sub = false -> contains s sub = false.
Proof.
  induction pre as [|a pre IH]; cbn [app contains]; [auto|].
  intros H; apply orb_false_iff in H as [_ H]; auto.
Qed.

Lemma contains_false_prefix (sub s post : pystr) :
  contains (s ++ post) sub = false -> contains s sub = false.
Proof.
  induction s as [|a s IH]; cbn [app].
  - destruct sub as [|x sub]; [|reflexivity].
    destruct post; discriminate.
  - cbn [contains]; intros H; apply orb_false_iff in H as [H1 H2].
    rewrite (IH H2), orb_false_r.
    destruct (is_prefix sub (a :: s)) eqn:E; [|reflexivity].
    apply (is_prefix_app _ _ post) in E; cbn [app] in E; congruence.
Qed.

Lemma contains_false_strip (sub s : pystr) :
  contains s sub = false -> contains (strip s) sub = false.
Proof.
  intros H; unfold strip, rstrip.
  destruct (lstrip_split s) as (pre & E & _).
  rewrite E in H; apply contains_false_suffix in H.
  destruct (lstrip_split (rev (lstrip s))) as (pre' & E' & _).
  apply (f_equal (@rev char)) in E'; rewrite rev_involutive, rev_app_distr in E'.
  rewrite E' in H; apply contains_false_prefix in H; exact H.
Qed.

(** What [unescape] returns holds no backslash-n and no white space at
    either end. *)
Lemma unescape_clean (v : pystr) :
  contains (unescape v) [92; 110]%N = false /\
  head_ok (unescape v) = true /\ head_ok (rev (unescape v)) = true.
Proof.
  unfold unescape; split; [|split].
  - apply contains_false_strip, replace_go_no_escape.
  - unfold strip; apply head_ok_rstrip, head_ok_lstrip.
  - unfold strip; apply rstrip_last_ok.
Qed.

(** Keys after an assignment. *)
Lemma keys_dict_set (d : dict) (k : pystr) (v : json) (x : pystr) :
  In x (keys (dict_set d k v)) <-> x = k \/ In x (keys d).
Proof.
  induction d as [|[k' v'] d IH]; simpl.
  - intuition.
  - destruct (str_eqb k k') eqn:E; simpl.
    + apply str_eqb_eq in E; subst k'; intuition.
    + rewrite IH; intuition.
Qed.

Lemma keys_fold_set (f : caps -> pystr) (h : caps -> json) (ms : list caps) :
  forall d x,
    In x (keys (fold_left (fun data g => dict_set data (f g) (h g)) ms d)) <->
    In x (keys d) \/ In x (map f ms).
Proof.
  induction ms as [|g ms IH]; intros d x; simpl.
  - intuition.
  - rewrite IH, keys_dict_set; intuition.
Qed.

Lemma keys_map_values (g : json -> json) (d : dict) :
  keys (map (fun kv => (fst kv, g (snd kv))) d) = keys d.
Proof. unfold keys; rewrite map_map; reflexivity. Qed.

(** ** Summarisation *)

Section Summarisation.

Variable db : unicode_db.
Variable svc : services.

(** Decoding the response causes no event and, under the [try], no
    exception. *)
Lemma decode_total (content : pystr) :
  try_except (decode_json svc content) (fun _ => ret (decode_pairs db content)) =
  ([], Ret match json_loads svc content with
           | Ret (JObj d) => map (fun kv => (fst kv, unescape_value (snd kv))) d
           | _ => decode_pairs db content
           end).
Proof.
  unfold decode_json, bind, try_except, ret, raise.
  destruct (json_loads svc content) as [[]|]; reflexivity.
Qed.

(** A run in one piece: the request, then the three ways it can go on. *)
Lemma summarize_unfold (text : pystr) :
  summarize_with_gemini db svc text =
  ([GenerateContent model_name (prompt_for text)],
   match generate_content svc model_name (prompt_for text) with
   | Raise e => Raise e
   | Ret None => Raise (Exception (py "'NoneType' object has no attribute 'strip'"))
   | Ret (Some t) =>
       Ret match json_loads svc (strip t) with
           | Ret (JObj d) => map (fun kv => (fst kv, unescape_value (snd kv))) d
           | _ => decode_pairs db (strip t)
           end
   end).
Proof.
  unfold summarize_with_gemini, call.
  destruct (generate_content svc model_name (prompt_for text)) as [[t|]|e];
    cbn [bind ret raise]; try reflexivity.
  rewrite decode_total; reflexivity.
Qed.

(** Case analysis on the answer to the request of a run. *)
Ltac by_response t e :=
  rewrite summarize_unfold; cbn [result events fst snd];
  destruct (generate_content svc model_name (prompt_for _)) as [[t|]|e].

(** C6. One invocation of [summarize_with_gemini] sends exactly one request
    to the model: the event log holds that request and nothing else, and
    when the request raises, the exception is the result (there is no second
    attempt). *)
Theorem summarize_one_request (text : pystr) :
  let m := summarize_with_gemini db svc text in
  events m = [GenerateContent model_name (prompt_for text)] /\
  length (filter is_request (events m)) = 1%nat /\
  match generate_content svc model_name (prompt_for text) with
  | Raise e => result m = Raise e
  | Ret _ => True
  end.
Proof.
  cbv zeta; split; [|split].
  - rewrite summarize_unfold; reflexivity.
  - rewrite summarize_unfold; reflexivity.
  - by_response t e; auto.
Qed.

(** C2, as amended.  When the response has a text, the result is decided by
    [json.loads] on the stripped text: a parsed object is returned with each
    of its string values unescaped and stripped; in every other case, a
    decoder exception or a parsed value that is not an object, the result
    is the mapping of the pairs that the pattern finds in that text, each
    captured value unescaped and stripped the same way.  An unescaped and
    stripped value holds no backslash-n and no white space at either end. *)
Theorem summarize_decoding (text : pystr) :
  let m := summarize_with_gemini db svc text in
  let clean := fun v => strip (str_replace v [92; 110]%N [NL]) in
  match generate_content svc model_name (prompt_for text) with
  | Ret (Some t) =>
      match json_loads svc (strip t) with
      | Ret (JObj d) =>
          result m =
          Ret (map (fun kv => (fst kv, match snd kv with
                                       | JStr v => JStr (clean v)
                                       | other => other
                                       end)) d)
      | Ret _ | Raise _ =>
          result m =
          Ret (fold_left
                 (fun data g => dict_set data (group g 1) (JStr (clean (group g 2))))
                 (re_finditer (pair_pattern db) (strip t)) [])
      end
  | Ret None | Raise _ => True
  end /\
  forall v, contains (clean v) [92; 110]%N = false /\
            head_ok (clean v) = true /\ head_ok (rev (clean v)) = true.
Proof.
  cbv zeta; split; [|apply unescape_clean].
  by_response t e; auto.
  destruct (json_loads svc (strip t)) as [[]|]; try reflexivity.
  f_equal; apply map_ext; intros [k []]; reflexivity.
Qed.

(** C3, as amended.  The keys of the returned mapping are those of the
    response, not a fixed list: the keys of the parsed object, in its
    order, when [json.loads] yields an object, and otherwise exactly the
    keys that the pattern captures in the response text.  (The eight
    fields are what the prompt asks for; nothing checks the answer against
    them.)  When the response has no text, no mapping is returned. *)
Theorem summarize_keys (text : pystr) :
  let m := summarize_with_gemini db svc text in
  match generate_content svc model_name (prompt_for text) with
  | Ret (Some t) =>
      match json_loads svc (strip t) with
      | Ret (JObj d) => result_keys m = keys d
      | Ret _ | Raise _ =>
          forall k, In k (result_keys m) <->
                    In k (map (fun g => group g 1)
                              (re_finditer (pair_pattern db) (strip t)))
      end
  | Ret None | Raise _ => exists e, result m = Raise e
  end.
Proof.
  cbv zeta; unfold result_keys; by_response t e; eauto.
  assert (F : forall k, In k (keys (decode_pairs db (strip t))) <->
                        In k (map (fun g => group g 1)
                                  (re_finditer (pair_pattern db) (strip t)))).
  { intros k; unfold decode_pairs.
    rewrite (keys_fold_set (fun g => group g 1) (fun g => JStr (unescape (group g 2)))).
    simpl; intuition. }
  destruct (json_loads svc (strip t)) as [[]|]; try exact F.
  apply keys_map_values.
Qed.

End Summarisation.

(** The model answers with the object wrapped in a list: [json.loads]
    succeeds, yet what is returned is not the parsed value but the mapping
    of the pairs found by the pattern. *)
Lemma summarize_list_answer :
  let svc := service_answering answer_in_list (Ret parsed_in_list) in
  let m := summarize_with_gemini ascii_db svc (py "Ann Lee Data Engineer") in
  json_loads svc (strip answer_in_list) = Ret parsed_in_list /\
  spec_decode ascii_db svc (strip answer_in_list) = parsed_in_list /\
  returned m = Some (JObj [(py "name", JStr (py "Ann"))]) /\
  returned m <> Some (spec_decode ascii_db svc (strip answer_in_list)).
Proof.
  cbv zeta.
  assert (R : returned (summarize_with_gemini ascii_db
                (service_answering answer_in_list (Ret parsed_in_list))
                (py "Ann Lee Data Engineer"))
              = Some (JObj [(py "name", JStr (py "Ann"))])).
  { rewrite summarize_unfold; vm_compute; reflexivity. }
  rewrite R.
  repeat split; try (vm_compute; reflexivity).
  vm_compute; discriminate.
Qed.

(** The model answers with an object of one key: one key is returned, not
    the eight fields. *)
Lemma summarize_one_key_answer :
  let svc := service_answering answer_one_key (Ret parsed_one_key) in
  let m := summarize_with_gemini ascii_db svc (py "Ann Lee Data Engineer") in
  result_keys m = [py "name"] /\ same_keys (result_keys m) eight_fields = false.
Proof.
  cbv zeta; unfold result_keys; rewrite summarize_unfold.
  split; vm_compute; reflexivity.
Qed.


(** ** Failures *)




(** ** Font sizing *)

(** The chain of [if]s of lines 223-228 picks the factor of the largest
    threshold exceeded. *)
Lemma shrink_factor_spec (n : Z) : shrink_factor n = spec_factor n.
Proof.
  unfold shrink_factor, spec_factor.
  destruct (Z.ltb_spec 800 n), (Z.ltb_spec 1200 n), (Z.ltb_spec 1600 n);
    try (exfalso; lia); reflexivity.
Qed.

(** With the default bounds the size is 11 up to 800 characters and 9
    beyond: [int(11 * 0.9)] is 9, and [int(11 * 0.8)] and [int(11 * 0.7)]
    are 8 and 7, below the minimum. *)
Lemma fitted_size_default (n : Z) :
  fitted_size 11 9 n = if (800 <? n)%Z then 9%Z else 11%Z.
Proof.
  unfold fitted_size, shrink_factor.
  destruct (Z.ltb_spec 800 n), (Z.ltb_spec 1200 n), (Z.ltb_spec 1600 n);
    try (exfalso; lia); vm_compute; reflexivity.
Qed.

(** The sizes of the default bounds are accepted, and 11 is no [int] too
    large for a float. *)
Lemma default_size_accepted (n : Z) : accepted_size (fitted_size 11 9 n) = true.
Proof. rewrite fitted_size_default; destruct (800 <? n)%Z; reflexivity. Qed.

(** Where the text frame is there, the bound fits a float and the size is
    one that a font takes, [auto_fit_text] returns, and what it returns is
    the shape with each run at the fitted size. *)
Lemma auto_fit_text_accepted (sh : shape) (max_size min_size : Z) :
  has_text_frame sh = true ->
  float_overflows max_size = false ->
  accepted_size (fitted_size max_size min_size (total_chars (paragraphs sh))) = true ->
  auto_fit_text sh max_size min_size =
  Ret (with_paragraphs sh
         (map_runs (fun r => {| run_text := run_text r;
                                run_font := set_size
                                  (fitted_size max_size min_size (total_chars (paragraphs sh)))
                                  (run_font r) |})
                   (paragraphs sh))).
Proof.
  intros Hf Ho Ha; unfold auto_fit_text.
  rewrite Hf, Ho, Ha, andb_false_r; reflexivity.
Qed.

Lemma auto_fit_text_default (sh : shape) :
  has_text_frame sh = true ->
  auto_fit_text sh 11 9 =
  Ret (with_paragraphs sh
         (map_runs (fun r => {| run_text := run_text r;
                                run_font := set_size
                                  (fitted_size 11 9 (total_chars (paragraphs sh)))
                                  (run_font r) |})
                   (paragraphs sh))).
Proof.
  intros Hf; apply auto_fit_text_accepted;
    [exact Hf | vm_compute; reflexivity | apply default_size_accepted].
Qed.

Lemma Forall2_map_self {A B} (R : A -> B -> Prop) (f : A -> B) (l : list A) :
  (forall a, R a (f a)) -> Forall2 R l (map f l).
Proof. intros H; induction l; cbn; constructor; auto. Qed.

(** Setting the size of every run gives the same shape, resized. *)
Lemma map_runs_resized (n : Z) (sh : shape) :
  resized n sh
    (with_paragraphs sh
       (map_runs (fun r => {| run_text := run_text r;
                              run_font := set_size n (run_font r) |})
                 (paragraphs sh))).
Proof.
  unfold resized, with_paragraphs, map_runs;
    cbn [has_text_frame word_wrap vertical_anchor paragraphs].
  repeat (split; [reflexivity|]).
  apply Forall2_map_self; intros p; cbn [runs space_after]; split; [reflexivity|].
  apply Forall2_map_self; intros r; unfold resized_run; cbn; auto.
Qed.

Lemma map_runs_all_sized (n : Z) (sh : shape) :
  all_sized n
    (with_paragraphs sh
       (map_runs (fun r => {| run_text := run_text r;
                              run_font := set_size n (run_font r) |})
                 (paragraphs sh))).
Proof.
  unfold all_sized, with_paragraphs, map_runs; cbn [paragraphs].
  apply Forall_map, Forall_forall; intros p _; cbn [runs].
  apply Forall_map, Forall_forall; intros r _; reflexivity.
Qed.

(** C7. With the default bounds [auto_fit_text] returns, for every shape
    with a text frame, that shape with each of its runs set to the size
    max(9, int(11 * s)) points and otherwise as it was (the same
    paragraphs, the same runs in them, their texts and other formatting
    kept), where s is 1.0, 0.9, 0.8 or 0.7 by the largest of 800, 1200 and
    1600 that the character count exceeds; that size lies between 9 and 11
    and does not grow with the character count. *)
Theorem auto_fit_text_sizes (sh : shape) :
  has_text_frame sh = true ->
  let n := total_chars (paragraphs sh) in
  let size := fitted_size 11 9 n in
  (exists fitted, auto_fit_text sh 11 9 = Ret fitted /\
                  resized size sh fitted /\
                  all_sized size fitted) /\
  size = Z.max 9 (py_int (PrimFloat.mul (float_of_int 11) (spec_factor n))) /\
  (9 <= size <= 11)%Z /\
  forall sh' : shape,
    (n <= total_chars (paragraphs sh'))%Z ->
    (fitted_size 11 9 (total_chars (paragraphs sh')) <= size)%Z.
Proof.
  intros Hf; cbv zeta; split.
  { eexists; split; [apply auto_fit_text_default, Hf|].
    split; [apply map_runs_resized | apply map_runs_all_sized]. }
  split; [unfold fitted_size; rewrite shrink_factor_spec; reflexivity|].
  split.
  - rewrite fitted_size_default; destruct (800 <? _)%Z; lia.
  - intros sh' H; rewrite !fitted_size_default.
    destruct (Z.ltb_spec 800 (total_chars (paragraphs sh))),
             (Z.ltb_spec 800 (total_chars (paragraphs sh'))); lia.
Qed.

(** A box of 900 characters comes back with its run at 9 points, a box of
    3 characters with its run at 11 points. *)
Lemma auto_fit_text_sizes_witness :
  has_text_frame (text_box (repeat 120%N 900)) = true /\
  total_chars (paragraphs (text_box (repeat 120%N 900))) = 900%Z /\
  (exists fitted, auto_fit_text (text_box (repeat 120%N 900)) 11 9 = Ret fitted /\
                  resized 9 (text_box (repeat 120%N 900)) fitted /\
                  all_sized 9 fitted) /\
  auto_fit_text (text_box (repeat 120%N 900)) 11 9
    = Ret (with_paragraphs (text_box (repeat 120%N 900))
             [{| runs := [{| run_text := repeat 120%N 900;
                             run_font := set_size 9 plain_font |}];
                 space_after := None |}]) /\
  (exists fitted, auto_fit_text (text_box (py "Ann")) 11 9 = Ret fitted /\
                  resized 11 (text_box (py "Ann")) fitted /\
                  all_sized 11 fitted) /\
  (fitted_size 11 9 (total_chars (paragraphs (text_box (repeat 120%N 900))))
   <= fitted_size 11 9 (total_chars (paragraphs (text_box (py "Ann")))))%Z.
Proof.
  split; [reflexivity|].
  split; [vm_compute; reflexivity|].
  split.
  { destruct (proj1 (auto_fit_text_sizes (text_box (repeat 120%N 900)) eq_refl))
      as (fitted & E & R & A).
    exists fitted; split; [exact E|].
    replace 9%Z with (fitted_size 11 9 (total_chars (paragraphs (text_box (repeat 120%N 900)))))
      by (vm_compute; reflexivity).
    split; [exact R | exact A]. }
  split; [vm_compute; reflexivity|].
  split.
  { destruct (proj1 (auto_fit_text_sizes (text_box (py "Ann")) eq_refl))
      as (fitted & E & R & A).
    exists fitted; split; [exact E|].
    replace 11%Z with (fitted_size 11 9 (total_chars (paragraphs (text_box (py "Ann")))))
      by (vm_compute; reflexivity).
    split; [exact R | exact A]. }
  apply (proj2 (proj2 (proj2 (auto_fit_text_sizes (text_box (py "Ann")) eq_refl)))).
  vm_compute; discriminate.
Defined.

(** ** Template filling *)

(** A text without the placeholder of any key passes the loop unchanged. *)
Lemma fill_items_untouched (db : unicode_db) (sh : shape) (items : dict) :
  forallb (fun kv => negb (contains (shape_text sh) (placeholder db (fst kv)))) items = true ->
  fill_items db items sh = Ret sh.
Proof.
  induction items as [|[key val] rest IH]; simpl; [reflexivity|].
  intros H; apply andb_true_iff in H as [Hk Hrest].
  apply negb_true_iff in Hk; rewrite Hk; apply IH, Hrest.
Qed.

Lemma fill_shape_untouched (db : unicode_db) (data : dict) (sh : shape) :
  untouched db data sh = true -> fill_shape db data sh = Ret sh.
Proof.
  unfold untouched, fill_shape; destruct (has_text_frame sh); simpl; [|reflexivity].
  apply fill_items_untouched.
Qed.

(** [map_outcome] keeps positions. *)
Lemma map_outcome_nth {A B} (g : A -> outcome B) (l : list A) :
  forall l' i a, map_outcome g l = Ret l' -> nth_error l i = Some a ->
    exists b, g a = Ret b /\ nth_error l' i = Some b.
Proof.
  induction l as [|x l IH]; intros l' i a H Hi.
  - destruct i; discriminate.
  - simpl in H.
    destruct (g x) as [b|] eqn:Ex; [|discriminate].
    destruct (map_outcome g l) as [bs|] eqn:El; [|discriminate].
    inversion H; subst l'; clear H.
    destruct i as [|i]; simpl in *.
    + inversion Hi; subst a; eauto.
    + eapply IH; eauto.
Qed.

(** What is handed to [prs.save] is the filled template. *)
Lemma fill_ppt_template_saved (db : unicode_db) (P : pptx_lib)
    (tpl out : pystr) (data : dict) (prs prs' : presentation) :
  Presentation P tpl = Ret prs ->
  saved_presentation (events (fill_ppt_template db P tpl data out)) = Some prs' ->
  fill_slides db data prs = Ret prs'.
Proof.
  unfold fill_ppt_template, call; intros ->; cbn [bind].
  destruct (fill_slides db data prs) as [filled|e]; cbn; [|discriminate].
  congruence.
Qed.

(** C10. [fill_ppt_template] leaves as it was every shape without a text
    frame and every text box whose text holds no placeholder of a key of
    the data: such a shape passes the loop unchanged and stands at its
    place, unchanged, in the presentation that is saved.  So a shape that
    comes out changed is a text box that held a placeholder. *)
Theorem fill_leaves_other_shapes (db : unicode_db) (data : dict) :
  (forall sh, untouched db data sh = true -> fill_shape db data sh = Ret sh) /\
  (forall sh sh', fill_shape db data sh = Ret sh' -> sh' <> sh ->
     has_text_frame sh = true /\
     exists kv, In kv data /\
                contains (shape_text sh) (placeholder db (fst kv)) = true) /\
  (forall P tpl out prs prs' i j sl sh,
     Presentation P tpl = Ret prs ->
     saved_presentation (events (fill_ppt_template db P tpl data out)) = Some prs' ->
     nth_error prs i = Some sl -> nth_error sl j = Some sh ->
     untouched db data sh = true ->
     exists sl', nth_error prs' i = Some sl' /\ nth_error sl' j = Some sh).
Proof.
  split; [apply fill_shape_untouched|]; split.
  - intros sh sh' H Hne.
    destruct (untouched db data sh) eqn:U.
    + rewrite (fill_shape_untouched _ _ _ U) in H; inversion H; congruence.
    + unfold untouched in U; apply orb_false_iff in U as [Hf Hk].
      apply negb_false_iff in Hf; split; [exact Hf|].
      destruct (forallb_forall (fun kv => negb (contains (shape_text sh)
                                 (placeholder db (fst kv)))) data) as [_ F].
      destruct (existsb (fun kv => contains (shape_text sh) (placeholder db (fst kv))) data)
        eqn:Ex.
      * apply existsb_exists in Ex as [kv [Hin Hc]]; eauto.
      * rewrite F in Hk; [discriminate|].
        intros kv Hin; apply negb_true_iff.
        destruct (contains _ _) eqn:Hc; [|reflexivity].
        rewrite <- Ex; symmetry; apply existsb_exists; eauto.
  - intros P tpl out prs prs' i j sl sh HP Hsaved Hi Hj U.
    pose proof (fill_ppt_template_saved db P tpl out data prs prs' HP Hsaved) as F.
    unfold fill_slides in F.
    destruct (map_outcome_nth _ _ _ _ _ F Hi) as (sl' & Hsl & Hi').
    destruct (map_outcome_nth _ _ _ _ _ Hsl Hj) as (sh' & Hsh & Hj').
    rewrite (fill_shape_untouched _ _ _ U) in Hsh; inversion Hsh; subst sh'.
    eauto.
Qed.

(** A slide with a picture and a box "Confidential", filled with a name:
    both shapes are saved as they were. *)
Lemma fill_leaves_other_shapes_witness :
  let data := [(py "name", JStr (py "Ann"))] in
  let prs := [[picture; text_box (py "Confidential")]] in
  untouched ascii_db data (text_box (py "Confidential")) = true /\
  fill_shape ascii_db data (text_box (py "Confidential"))
    = Ret (text_box (py "Confidential")) /\
  exists sl', nth_error prs 0 = Some sl' /\
              nth_error sl' 1 = Some (text_box (py "Confidential")).
Proof.
  cbv zeta.
  split; [vm_compute; reflexivity|].
  split.
  - apply (proj1 (fill_leaves_other_shapes ascii_db [(py "name", JStr (py "Ann"))])).
    vm_compute; reflexivity.
  - apply (proj2 (proj2 (fill_leaves_other_shapes ascii_db [(py "name", JStr (py "Ann"))]))
             (sample_pptx [[picture; text_box (py "Confidential")]])
             (py "refined_template.pptx") (py "output/cv.pptx")
             [[picture; text_box (py "Confidential")]]
             [[picture; text_box (py "Confidential")]]
             0%nat 1%nat [picture; text_box (py "Confidential")]);
      vm_compute; reflexivity.
Defined.

(** C1, at a failing input.  A box with the two placeholders
    "{{NAME}} - {{ROLE}}" is filled with name "**Ann**" and role "Dev".
    The first key renders "Ann" as a bold run; the second key then reads
    the text back without the markers and writes it anew, so that no run is
    bold in the end, and each rewrite leaves an empty paragraph in front.
    A box with one placeholder, "{{NAME}}", ends as an empty paragraph
    followed by the paragraph of the value. *)
Theorem fill_two_placeholders_loses_bold :
  let data := [(py "name", JStr (py "**Ann**")); (py "role", JStr (py "Dev"))] in
  (exists sh, fill_shape ascii_db [(py "name", JStr (py "**Ann**"))]
                (text_box (py "{{NAME}} - {{ROLE}}")) = Ret sh /\
              bold_texts sh = [py "Ann"] /\
              shape_text sh = [NL] ++ py "Ann - {{ROLE}}") /\
  (exists sh, fill_shape ascii_db data (text_box (py "{{NAME}} - {{ROLE}}")) = Ret sh /\
              bold_texts sh = [] /\
              map paragraph_text (paragraphs sh) = [[]; []; py "Ann - Dev"]) /\
  (exists sh, fill_shape ascii_db [(py "name", JStr (py "Ann"))]
                (text_box (py "{{NAME}}")) = Ret sh /\
              map paragraph_text (paragraphs sh) = [[]; py "Ann"]).
Proof.
  cbv zeta; repeat split.
  - eexists; split; [vm_compute; reflexivity|]; split; vm_compute; reflexivity.
  - eexists; split; [vm_compute; reflexivity|]; split; vm_compute; reflexivity.
  - eexists; split; [vm_compute; reflexivity|]; vm_compute; reflexivity.
Qed.

(** C9, at a failing input.  The text "**" holds no matched span, so the
    split returns it as its only piece; that piece starts and ends with two
    stars, is taken for a span and cut to nothing: the paragraph gets one
    bold run with empty text, and the two stars are lost.  The same happens
    to the unpaired stars that follow a span, as in "**Python****". *)
Theorem apply_bold_markdown_lone_marker :
  re_split bold_pattern (py "**") = [py "**"] /\
  apply_bold_markdown empty_paragraph (py "**")
    = Ret {| runs := [bold_run []]; space_after := None |} /\
  (exists p, apply_bold_markdown empty_paragraph (py "**") = Ret p /\
             paragraph_text p = []) /\
  re_split bold_pattern (py "**Python****") = [[]; py "**Python**"; py "**"] /\
  (exists p, apply_bold_markdown empty_paragraph (py "**Python****") = Ret p /\
             paragraph_text p = py "Python").
Proof.
  split; [vm_compute; reflexivity|].
  split; [vm_compute; reflexivity|].
  split; [eexists; split; vm_compute; reflexivity|].
  split; [vm_compute; reflexivity|].
  eexists; split; vm_compute; reflexivity.
Qed.

(** ** Splitting at bold spans *)

Section SplitAtGroup.

Variable r : regex.

(** Group 1 around a whole pattern holds the matched text, a word of the
    pattern. *)
Lemma match_at_group1 (s : pystr) (n : nat) (g : caps) :
  match_at (Group 1 r) s = Some (n, g) ->
  group g 1 = firstn n s /\ lang r (firstn n s).
Proof.
  unfold match_at; cbn [rmatch].
  destruct (rmatch r s [] _) as [[s' c']|] eqn:E; [|discriminate].
  apply rmatch_sound in E as (pre & s2 & c2 & -> & L & E).
  inversion E; subst s' c'; clear E.
  intros E; inversion E; subst n g; clear E.
  assert (F : firstn (length (pre ++ s2) - length s2) (pre ++ s2) = pre).
  { rewrite length_app, Nat.add_sub, firstn_app, Nat.sub_diag, firstn_all.
    apply app_nil_r. }
  rewrite F; cbn [group Nat.eqb]; auto.
Qed.

(** The pieces of a split, put together, are the text. *)
Lemma split_go_concat :
  forall s skip cur,
    concat (split_go (Group 1 r) skip cur s) = rev cur ++ skipn skip s.
Proof.
  induction s as [|c s IH]; intros skip cur.
  - destruct skip; cbn; rewrite ?app_nil_r; reflexivity.
  - cbn [split_go]; destruct skip as [|k]; [|rewrite IH; reflexivity].
    destruct (match_at (Group 1 r) (c :: s)) as [[[|n] g]|] eqn:E.
    + rewrite IH; cbn; rewrite <- app_assoc; reflexivity.
    + apply match_at_group1 in E as [-> _].
      cbn [concat]; rewrite IH; cbn [rev app firstn skipn].
      rewrite firstn_skipn; reflexivity.
    + rewrite IH; cbn; rewrite <- app_assoc; reflexivity.
Qed.

(** The pieces at the odd places are words of the pattern. *)
Lemma split_go_spans :
  forall s skip cur, spans_ok (lang r) (split_go (Group 1 r) skip cur s).
Proof.
  induction s as [|c s IH]; intros skip cur; [exact I|].
  cbn [split_go]; destruct skip as [|k]; [|apply IH].
  destruct (match_at (Group 1 r) (c :: s)) as [[[|n] g]|] eqn:E; try apply IH.
  apply match_at_group1 in E as [-> L].
  cbn [spans_ok]; split; [exact L | apply IH].
Qed.

End SplitAtGroup.

Lemma spans_ok_impl (P Q : pystr -> Prop) :
  (forall m, P m -> Q m) -> forall l, spans_ok P l -> spans_ok Q l.
Proof.
  intros HPQ; fix IH 1; intros [|t [|m rest]]; cbn; auto.
  intros [Hm Hrest]; split; [apply HPQ, Hm | apply IH, Hrest].
Qed.

(** A word of the span pattern: two stars, a text without newline, two
    stars. *)
Lemma bold_span_words (w : pystr) :
  lang bold_span w ->
  exists mid, w = py "**" ++ mid ++ py "**" /\ single_line mid = true.
Proof.
  change bold_span with
    (Seq (Seq (lit 42) (Seq (lit 42) Eps))
         (Seq (Star false any_char) (Seq (Seq (lit 42) (Seq (lit 42) Eps)) Eps))).
  unfold lit, any_char; cbn [lang].
  intros (u1 & v1 & -> & (a & b & -> & (x1 & -> & Hx1) & (c & d & -> & (x2 & -> & Hx2) & ->))
                 & (u2 & v2 & -> & (ws & -> & Hws)
                 & (u3 & v3 & -> & (e & f & -> & (x3 & -> & Hx3)
                                    & (g & h & -> & (x4 & -> & Hx4) & ->)) & ->))).
  apply char_eqb_eq in Hx1, Hx2, Hx3, Hx4; subst x1 x2 x3 x4.
  exists (concat ws); split; [reflexivity|].
  unfold single_line.
  induction Hws as [|t ws (x & -> & Hx) _ IH]; [reflexivity|].
  cbn; rewrite Hx; exact IH.
Qed.

(** ** Texts that a run can hold *)

Lemma xml_compatible_ascii (c : char) : (c < 128)%N -> xml_compatible c = true.
Proof.
  intros H; unfold xml_compatible, in_range.
  replace (55296 <=? c)%N with false by (symmetry; apply N.leb_gt; lia).
  replace (65534 <=? c)%N with false by (symmetry; apply N.leb_gt; lia).
  reflexivity.
Qed.

Lemma hex_digit_ascii (n : N) : (n < 16)%N -> (hex_digit n < 128)%N.
Proof. unfold hex_digit; destruct (n <? 10)%N; lia. Qed.

Lemma is_control_small (c : char) : is_control c = true -> (c < 32)%N.
Proof.
  unfold is_control, in_range; intros H.
  apply orb_true_iff in H as [H|H]; apply andb_true_iff in H as [_ H];
    apply N.leb_le in H; lia.
Qed.

(** Escaping neither brings in nor takes out a character that XML refuses. *)
Lemma escape_char_storable (c : char) :
  forallb xml_compatible (escape_char c) = xml_compatible c.
Proof.
  unfold escape_char; destruct (is_control c) eqn:E; [|cbn; apply andb_true_r].
  apply is_control_small in E.
  rewrite (xml_compatible_ascii c) by lia.
  rewrite !forallb_app; cbn [map forallb].
  rewrite !(xml_compatible_ascii (hex_digit _))
    by (apply hex_digit_ascii, N.mod_lt; discriminate).
  reflexivity.
Qed.

Lemma escape_storable (s : pystr) : storable (escape_ctrl_chars s) = storable s.
Proof.
  unfold storable, escape_ctrl_chars; induction s as [|c s IH]; cbn [flat_map forallb];
    [reflexivity|].
  rewrite forallb_app, escape_char_storable, IH; reflexivity.
Qed.

Lemma escape_no_control (s : pystr) : no_control s = true -> escape_ctrl_chars s = s.
Proof.
  unfold no_control, escape_ctrl_chars; induction s as [|c s IH]; cbn [flat_map forallb];
    [reflexivity|].
  intros H; apply andb_true_iff in H as [Hc Hs].
  rewrite (IH Hs); unfold escape_char; apply negb_true_iff in Hc; rewrite Hc; reflexivity.
Qed.

Lemma storable_concat (l : list pystr) : storable (concat l) = forallb storable l.
Proof.
  unfold storable; induction l as [|x l IH]; cbn [concat forallb]; [reflexivity|].
  rewrite forallb_app, IH; reflexivity.
Qed.

Lemma set_run_text_outcome (s : pystr) :
  set_run_text s = if storable s then Ret (escape_ctrl_chars s) else Raise xml_error.
Proof.
  unfold set_run_text; cbv zeta.
  change (forallb xml_compatible (escape_ctrl_chars s)) with (storable (escape_ctrl_chars s)).
  rewrite escape_storable; reflexivity.
Qed.

(** What the loop cuts off a piece that it takes for a span are stars. *)
Lemma marked_slice_storable (part : pystr) :
  startswith part (py "**") && endswith part (py "**") = true ->
  storable (slice_2_m2 part) = storable part.
Proof.
  unfold startswith, endswith; change (py "**") with [42; 42]%N.
  intros H; apply andb_true_iff in H as [Hs He].
  destruct part as [|a [|b rest]]; cbn [is_prefix] in Hs;
    rewrite ?andb_false_r in Hs; try discriminate.
  apply andb_true_iff in Hs as [Ha Hs]; apply andb_true_iff in Hs as [Hb _].
  apply char_eqb_eq in Ha, Hb; subst a b.
  unfold slice_2_m2; cbn [length skipn Nat.sub].
  replace (length rest - 0 - 2)%nat with (length rest - 2)%nat by lia.
  change (storable (42 :: 42 :: rest)%N) with (storable rest).
  cbn [rev] in He.
  destruct (rev rest) as [|x [|y r]] eqn:R;
    apply (f_equal (@rev char)) in R; rewrite rev_involutive in R; subst rest.
  - reflexivity.
  - cbn [app is_prefix] in He; apply andb_true_iff in He as [He _].
    apply char_eqb_eq in He; subst x; reflexivity.
  - cbn [app is_prefix rev] in He.
    apply andb_true_iff in He as [Hx He]; apply andb_true_iff in He as [Hy _].
    apply char_eqb_eq in Hx, Hy; subst x y.
    cbn [rev]; rewrite <- app_assoc, length_app; cbn [app length].
    replace (length (rev r) + 2 - 2)%nat with (length (rev r)) by lia.
    rewrite firstn_app, Nat.sub_diag, firstn_all; cbn [firstn]; rewrite app_nil_r.
    unfold storable; rewrite forallb_app; cbn; rewrite andb_true_r; reflexivity.
Qed.

(** The loop body adds the stored run of a piece, and raises exactly when
    the piece holds a character that XML refuses. *)
Lemma run_of_part_outcome (part : pystr) :
  run_of_part part = if storable part then Ret (stored_run part) else Raise xml_error.
Proof.
  unfold run_of_part, stored_run.
  destruct (startswith part (py "**") && endswith part (py "**")) eqn:E;
    rewrite set_run_text_outcome.
  - rewrite (marked_slice_storable _ E); destruct (storable part); reflexivity.
  - destruct (storable part); reflexivity.
Qed.

Lemma add_runs_outcome (pieces : list pystr) :
  forall p,
    for_each (fun p part => and_then (run_of_part part) (fun r => Ret (add_run p r)))
             pieces p
    = if forallb storable pieces
      then Ret {| runs := runs p ++ map stored_run pieces; space_after := space_after p |}
      else Raise xml_error.
Proof.
  induction pieces as [|part l IH]; intros p; cbn [for_each forallb map].
  - rewrite app_nil_r; destruct p; reflexivity.
  - rewrite run_of_part_outcome; destruct (storable part); cbn [and_then andb];
      [|reflexivity].
    rewrite IH; destruct (forallb storable l); [|reflexivity].
    unfold add_run; cbn [runs space_after]; rewrite <- app_assoc; reflexivity.
Qed.

(** What [apply_bold_markdown] returns, and when it raises. *)
Lemma apply_bold_markdown_outcome (p : paragraph) (text : pystr) :
  apply_bold_markdown p text
  = if storable text
    then Ret {| runs := runs p ++ map stored_run (re_split bold_pattern text);
                space_after := space_after p |}
    else Raise xml_error.
Proof.
  unfold apply_bold_markdown; rewrite add_runs_outcome, <- storable_concat.
  unfold re_split, bold_pattern at 1 2; rewrite split_go_concat; reflexivity.
Qed.

(** The loop turns a word of the span pattern into a bold run without the
    stars. *)
Lemma stored_run_span (mid : pystr) :
  stored_run (py "**" ++ mid ++ py "**") = bold_run (escape_ctrl_chars mid).
Proof.
  unfold stored_run, startswith, endswith.
  change (py "**") with [42; 42]%N.
  rewrite !rev_app_distr; cbn [rev app is_prefix char_eqb N.eqb Pos.eqb andb].
  unfold slice_2_m2; do 2 f_equal.
  cbn [length skipn app Nat.sub]; rewrite length_app; cbn [length].
  replace (length mid + 2 - 0 - 2)%nat with (length mid) by lia.
  rewrite firstn_app, Nat.sub_diag, firstn_all; apply app_nil_r.
Qed.

(** X1.  What [apply_bold_markdown] does for every text: the pieces of the
    split make up the text; the call raises exactly when the text holds a
    character that XML refuses, and otherwise the paragraph gets one run
    per piece, in order; and every matched span, two stars around a text,
    becomes a bold run holding that text as it is stored. *)
Theorem apply_bold_markdown_runs (p : paragraph) (text : pystr) :
  let pieces := re_split bold_pattern text in
  concat pieces = text /\
  match apply_bold_markdown p text with
  | Ret p' => storable text = true /\
              runs p' = runs p ++ map stored_run pieces /\
              space_after p' = space_after p
  | Raise _ => storable text = false
  end /\
  spans_ok (fun m => exists mid, m = py "**" ++ mid ++ py "**" /\
                                 single_line mid = true /\
                                 stored_run m = bold_run (escape_ctrl_chars mid))
           pieces.
Proof.
  cbv zeta; split; [|split].
  - unfold re_split, bold_pattern; rewrite split_go_concat; reflexivity.
  - rewrite apply_bold_markdown_outcome; destruct (storable text); auto.
  - unfold re_split, bold_pattern.
    eapply spans_ok_impl; [|apply split_go_spans].
    intros m L; apply bold_span_words in L as (mid & -> & Hmid).
    exists mid; auto using stored_run_span.
Qed.

(** * Further properties *)

(** ** Runs of one character class *)

Lemma drop_while_length (p : char -> bool) (s : pystr) :
  (length (drop_while p s) <= length s)%nat.
Proof.
  induction s as [|c s IH]; simpl; [lia|].
  destruct (p c); simpl; lia.
Qed.

Lemma first_not_drop_while (p : char -> bool) (s : pystr) :
  first_not p (drop_while p s) = true.
Proof.
  induction s as [|c s IH]; simpl; [reflexivity|].
  destruct (p c) eqn:E; [exact IH | simpl; rewrite E; reflexivity].
Qed.

Lemma skipn_drop_while (p : char -> bool) (s : pystr) :
  skipn (length s - length (drop_while p s)) s = drop_while p s.
Proof.
  induction s as [|c s IH]; [reflexivity|].
  cbn [drop_while]; destruct (p c).
  - pose proof (drop_while_length p s).
    replace (length (c :: s) - length (drop_while p s))%nat
      with (S (length s - length (drop_while p s))) by (cbn [length]; lia).
    exact IH.
  - rewrite Nat.sub_diag; reflexivity.
Qed.

(** A greedy repetition of a character test, followed by something that
    cannot fail, takes the whole run. *)
Lemma star_chr_greedy (p : char -> bool) (k : cont) :
  (forall s c, k s c <> None) ->
  forall n s c, (length s < n)%nat ->
    star_loop (rmatch (Chr p)) true k n s c = k (drop_while p s) c.
Proof.
  intros Hk; induction n as [|n IH]; intros s c Hn; [lia|].
  cbn [star_loop rmatch].
  destruct s as [|x s']; [reflexivity|].
  cbn [drop_while]; destruct (p x); [|reflexivity].
  replace (length s' <? length (x :: s'))%nat with true
    by (symmetry; apply Nat.ltb_lt; cbn [length]; lia).
  rewrite IH by (cbn [length] in Hn; lia).
  destruct (k (drop_while p s') c) eqn:E; [reflexivity | exfalso; eapply Hk; eauto].
Qed.

(** Where [p+] matches, and how much. *)
Lemma match_at_plus_chr (p : char -> bool) (x : char) (s : pystr) :
  match_at (plus (Chr p)) (x :: s) =
  if p x then Some (S (length s - length (drop_while p s)), []) else None.
Proof.
  unfold match_at, plus.
  remember (Star true (Chr p)) as R eqn:ER.
  cbn [rmatch]; destruct (p x); [|reflexivity].
  subst R.
  change (rmatch (Star true (Chr p)) s [] (fun s' c => Some (s', c)))
    with (star_loop (rmatch (Chr p)) true (fun s' c => Some (s', c))
                    (S (length s)) s []).
  rewrite star_chr_greedy by (discriminate || lia).
  pose proof (drop_while_length p s).
  f_equal; f_equal; cbn [length]; lia.
Qed.

(** Dropping the characters of a match and going on is going on behind
    them. *)
Lemma sub_go_skip (r : regex) (repl : pystr) :
  forall s k, sub_go r repl k s = sub_go r repl 0 (skipn k s).
Proof.
  induction s as [|c s IH]; intros [|k]; try reflexivity.
  cbn [sub_go skipn]; apply IH.
Qed.

(** [re.sub] of [p+], one step. *)
Lemma re_sub_plus_chr_step (p : char -> bool) (repl : pystr) (x : char) (s : pystr) :
  re_sub (plus (Chr p)) repl (x :: s) =
  if p x then repl ++ re_sub (plus (Chr p)) repl (drop_while p s)
  else x :: re_sub (plus (Chr p)) repl s.
Proof.
  unfold re_sub; cbn [sub_go]; rewrite match_at_plus_chr.
  destruct (p x); [|reflexivity].
  rewrite sub_go_skip, skipn_drop_while; reflexivity.
Qed.

(** After [p+] is replaced by one character, no two neighbours satisfy
    [p]. *)
Lemma re_sub_plus_chr_no_double (p : char -> bool) (y : char) :
  forall n s, (length s <= n)%nat ->
    no_double p (re_sub (plus (Chr p)) [y] s) = true /\
    (first_not p s = true -> first_not p (re_sub (plus (Chr p)) [y] s) = true).
Proof.
  induction n as [|n IH]; intros [|x s] Hn; try (split; reflexivity);
    cbn [length] in Hn; [lia|].
  rewrite re_sub_plus_chr_step; destruct (p x) eqn:Hx.
  - pose proof (drop_while_length p s).
    destruct (IH (drop_while p s)) as [Hd Hf]; [lia|].
    specialize (Hf (first_not_drop_while p s)).
    split; [|cbn; rewrite Hx; discriminate].
    cbn [app no_double]; rewrite Hd, andb_true_r.
    destruct (re_sub _ _ (drop_while p s)) as [|z w]; [reflexivity|].
    cbn in Hf; apply negb_true_iff in Hf; rewrite Hf, andb_false_r; reflexivity.
  - destruct (IH s) as [Hd _]; [lia|].
    split; [|intros _; cbn; rewrite Hx; reflexivity].
    cbn [no_double]; rewrite Hd, andb_true_r.
    destruct (re_sub _ _ s); [reflexivity | rewrite Hx; reflexivity].
Qed.

(** ** What a substitution leaves *)

(** [re.sub] writes only characters of the replacement and of the text. *)
Lemma sub_go_forallb (q : char -> bool) (r : regex) (repl : pystr) :
  forallb q repl = true ->
  forall s skip, forallb q s = true -> forallb q (sub_go r repl skip s) = true.
Proof.
  intros Hr; induction s as [|c s IH]; intros skip H; simpl; [reflexivity|].
  simpl in H; apply andb_true_iff in H as [Hc Hs].
  destruct skip as [|k]; [|auto].
  destruct (match_at r (c :: s)) as [[[|n] g]|]; simpl;
    rewrite ?forallb_app, ?Hr, ?Hc, ?IH; auto.
Qed.

(** Replacing such a pattern leaves only characters of the replacement and
    characters that do not satisfy [p]. *)
Lemma sub_go_covers (q p : char -> bool) (r : regex) (repl : pystr) :
  covers r p -> forallb q repl = true -> (forall x, p x = false -> q x = true) ->
  forall s skip, forallb q (sub_go r repl skip s) = true.
Proof.
  intros Hcov Hr Hq; induction s as [|c s IH]; intros skip; simpl sub_go; [reflexivity|].
  destruct skip as [|k]; [|apply IH].
  destruct (p c) eqn:Hc.
  - destruct (Hcov c s Hc) as (n & g & ->).
    rewrite forallb_app, Hr, IH; reflexivity.
  - destruct (match_at r (c :: s)) as [[[|n] g]|]; simpl;
      rewrite ?forallb_app, ?Hr, ?(Hq c Hc), ?IH; reflexivity.
Qed.

Lemma covers_plus_chr (p : char -> bool) : covers (plus (Chr p)) p.
Proof. intros x s Hx; rewrite match_at_plus_chr, Hx; eauto. Qed.

Lemma covers_chr (p : char -> bool) : covers (Chr p) p.
Proof.
  intros x s Hx; unfold match_at; cbn [rmatch]; rewrite Hx.
  exists 0%nat, []; f_equal; f_equal; cbn [length]; lia.
Qed.

(** ** What [strip] keeps *)

(** [strip] cuts a piece out of the text. *)
Lemma strip_middle (s : pystr) : exists a b, s = a ++ strip s ++ b.
Proof.
  destruct (lstrip_split s) as (a & Ea & _).
  destruct (lstrip_split (rev (lstrip s))) as (b & Eb & _).
  apply (f_equal (@rev char)) in Eb; rewrite rev_involutive, rev_app_distr in Eb.
  exists a, (rev b); unfold strip, rstrip; rewrite <- Eb; exact Ea.
Qed.

Lemma forallb_strip (q : char -> bool) (s : pystr) :
  forallb q s = true -> forallb q (strip s) = true.
Proof.
  destruct (strip_middle s) as (a & b & E); intros H.
  rewrite E, !forallb_app in H.
  apply andb_true_iff in H as [_ H]; apply andb_true_iff in H as [H _]; exact H.
Qed.

Lemma no_double_app (p : char -> bool) (a b : pystr) :
  no_double p (a ++ b) = true -> no_double p a = true /\ no_double p b = true.
Proof.
  induction a as [|x a IH]; [auto|].
  cbn [app no_double]; intros H; apply andb_true_iff in H as [Hx H].
  destruct (IH H) as [Ha Hb]; split; [|exact Hb].
  rewrite Ha, andb_true_r.
  destruct a as [|y a]; [reflexivity | exact Hx].
Qed.

Lemma no_double_strip (p : char -> bool) (s : pystr) :
  no_double p s = true -> no_double p (strip s) = true.
Proof.
  destruct (strip_middle s) as (a & b & E); intros H.
  rewrite E in H; apply no_double_app in H as [_ H].
  apply no_double_app in H as [H _]; exact H.
Qed.

Lemma strip_trimmed (s : pystr) :
  head_ok (strip s) = true /\ head_ok (rev (strip s)) = true.
Proof.
  unfold strip; split; [apply head_ok_rstrip, head_ok_lstrip | apply rstrip_last_ok].
Qed.

Lemma strip_blank (s : pystr) : forallb is_space s = true -> strip s = [].
Proof.
  intros H; unfold strip.
  replace (lstrip s) with (@nil char); [reflexivity|].
  induction s as [|c s IH]; [reflexivity|].
  simpl in *; apply andb_true_iff in H as [-> H]; auto.
Qed.

(** ** The normal form of cleaned text *)

Lemma lacks_flip (c x : char) : char_eqb c x = false -> negb (char_eqb x c) = true.
Proof. unfold char_eqb; rewrite N.eqb_sym; intros ->; reflexivity. Qed.

(** A pass that writes no [c] keeps a text free of [c]. *)
Ltac keep_lacking :=
  unfold re_sub; apply sub_go_forallb; [reflexivity|].

(** The pass for [c] itself, [c] or [c+], leaves no [c]. *)
Ltac pass_removes c :=
  unfold re_sub;
  apply (sub_go_covers _ (char_eqb c));
  [ first [apply covers_chr | apply covers_plus_chr]
  | reflexivity
  | apply lacks_flip ].

Lemma clean_text_passes_lacks (db : unicode_db) (text : pystr) :
  forallb (fun c => lacks c (clean_text_passes db text))
          [0; 9; 10; 11; 12; 13; 160; 8203]%N = true.
Proof.
  unfold clean_text_passes, xml_artifacts, whitespace_patterns, page_break_indicators.
  cbn [fold_left forallb]; unfold lacks.
  repeat (apply andb_true_iff; split); try reflexivity; apply forallb_strip.
  - do 18 keep_lacking; pass_removes 0%N.
  - do 14 keep_lacking; pass_removes 9%N.
  - do 11 keep_lacking; pass_removes 10%N.
  - do 9 keep_lacking; pass_removes 11%N.
  - do 1 keep_lacking; pass_removes 12%N.
  - do 12 keep_lacking; pass_removes 13%N.
  - do 7 keep_lacking; pass_removes 160%N.
  - do 8 keep_lacking; pass_removes 8203%N.
Qed.

Lemma clean_text_passes_no_double (db : unicode_db) (text : pystr) :
  no_double (char_eqb 32%N) (clean_text_passes db text) = true.
Proof.
  unfold clean_text_passes; apply no_double_strip.
  eapply (proj1 (re_sub_plus_chr_no_double (char_eqb 32%N) 32%N _ _ (le_n _))).
Qed.

(** X2.  The text that [clean_text] returns is normalised: it holds no NUL,
    tab, line feed, vertical tab, form feed, carriage return, no-break
    space or zero-width space, no two spaces in a row, and no white space
    at either end. *)
Theorem clean_text_normal_form (db : unicode_db) (text : pystr) :
  let out := clean_text db text in
  forallb (fun c => lacks c out) [0; 9; 10; 11; 12; 13; 160; 8203]%N = true /\
  no_double (char_eqb 32%N) out = true /\
  head_ok out = true /\ head_ok (rev out) = true.
Proof.
  cbv zeta; rewrite clean_text_passes_kept.
  split; [apply clean_text_passes_lacks|].
  split; [apply clean_text_passes_no_double|].
  unfold clean_text_passes; apply strip_trimmed.
Qed.

Lemma fold_sub_forallb (q : char -> bool) (repl : pystr) (pats : list regex) :
  forallb q repl = true ->
  forall t, forallb q t = true ->
    forallb q (fold_left (fun t p => re_sub p repl t) pats t) = true.
Proof.
  intros Hr; induction pats as [|p pats IH]; intros t Ht; simpl; [exact Ht|].
  apply IH; unfold re_sub; apply sub_go_forallb; assumption.
Qed.

(** X3.  A text of white space only (an empty text too) is cleaned to the
    empty string. *)
Theorem clean_text_blank (db : unicode_db) (text : pystr) :
  forallb is_space text = true -> clean_text db text = [].
Proof.
  intros H; rewrite clean_text_passes_kept; unfold clean_text_passes.
  apply strip_blank; unfold re_sub at 1; apply sub_go_forallb; [reflexivity|].
  do 2 (apply fold_sub_forallb; [reflexivity|]).
  apply fold_sub_forallb; [reflexivity | exact H].
Qed.

(** A page of blank lines, tabs and a form feed. *)
Lemma clean_text_blank_witness :
  forallb is_space [32; 10; 10; 9; 12; 160; 13; 10]%N = true /\
  clean_text ascii_db [32; 10; 10; 9; 12; 160; 13; 10]%N = [].
Proof.
  split; [reflexivity|].
  apply (clean_text_blank ascii_db [32; 10; 10; 9; 12; 160; 13; 10]%N); reflexivity.
Defined.

(** ** The resume text in the prompt *)

(** X4.  The prompt is the fixed instructions followed by the resume text
    and a newline, and that resume text is plain: ASCII only, its only
    white space single spaces, none of them at either end. *)
Theorem prompt_resume_text (text : pystr) :
  let t := resume_in_prompt text in
  prompt_for text = [NL] ++ join [NL] prompt_lines ++ [NL] ++ t ++ [NL] /\
  forallb is_ascii t = true /\
  forallb (fun c => negb (is_space c) || char_eqb c 32%N) t = true /\
  no_double is_space t = true /\
  head_ok t = true /\ head_ok (rev t) = true.
Proof.
  cbv zeta; unfold resume_in_prompt.
  split; [reflexivity|].
  split.
  { apply forallb_strip; unfold re_sub at 1.
    apply sub_go_forallb; [reflexivity|].
    unfold re_sub, non_ascii_run.
    apply (sub_go_covers _ (fun c => negb (in_range 0 127 c)));
      [apply covers_plus_chr | reflexivity |].
    intros x Hx; apply negb_false_iff in Hx; exact Hx. }
  split.
  { apply forallb_strip; unfold re_sub at 1, whitespace_run, ws.
    apply (sub_go_covers _ is_space); [apply covers_plus_chr | reflexivity |].
    intros x ->; reflexivity. }
  split; [|apply strip_trimmed].
  apply no_double_strip; unfold whitespace_run, ws.
  eapply (proj1 (re_sub_plus_chr_no_double is_space 32%N _ _ (le_n _))).
Qed.

(** ** The page loop and the sections *)

Lemma count_app (evs evs' : list event) :
  length (filter is_page_extract (evs ++ evs')) =
  (length (filter is_page_extract evs) + length (filter is_page_extract evs'))%nat.
Proof. rewrite filter_app, length_app; reflexivity. Qed.

(** X5.  For a PDF of n pages the loop calls [page.extract_text] at most
    2n times (once plainly and at most once more with [layout=True] per
    page), and at least n times when no call raises. *)
Theorem pdf_pages_calls (pages : list pdf_page) (text : pystr) :
  let m := pdf_pages pages text in
  let calls := length (filter is_page_extract (events m)) in
  (calls <= 2 * length pages)%nat /\
  match result m with
  | Ret _ => (length pages <= calls)%nat
  | Raise _ => True
  end.
Proof.
  cbv zeta; revert text; induction pages as [|page rest IH]; intros text.
  - cbn; auto.
  - cbn [pdf_pages length].
    rewrite bind_events, bind_result; cbn [call events result fst snd].
    destruct (page_extract_text page) as [t|e]; [|cbn; split; [lia | exact I]].
    rewrite count_app, bind_events, bind_result.
    destruct (needs_layout t); cbn [call ret events result fst snd].
    + destruct (page_extract_text_layout page) as [u|e];
        [|cbn; split; [lia | exact I]].
      rewrite count_app.
      assert (H : forall t', (length (filter is_page_extract (events (pdf_pages rest t')))
                              <= 2 * length rest)%nat /\
                             match result (pdf_pages rest t') with
                             | Ret _ => (length rest
                                         <= length (filter is_page_extract
                                                      (events (pdf_pages rest t'))))%nat
                             | Raise _ => True
                             end) by (intros; apply IH).
      destruct u as [[|c u]|]; cbn [filter is_page_extract length];
        match goal with |- context [pdf_pages rest ?t'] => destruct (H t') as [H1 H2] end;
        (split; [lia|]); destruct (result (pdf_pages rest _)); auto; lia.
    + destruct t as [[|c u]|]; cbn [filter is_page_extract length app];
        match goal with |- context [pdf_pages rest ?t'] => destruct (IH t') as [H1 H2] end;
        (split; [lia|]); destruct (result (pdf_pages rest _)); auto; lia.
Qed.

(** X14.  Reading headers and footers stops without notice at the first
    section that raises: the texts of the readable sections before it are
    kept (of the failing section, its header when only the footer raised),
    and the sections after it are not read. *)
Theorem section_texts_until_failure (before after : list docx_section)
    (bad : docx_section) :
  forallb section_readable before = true ->
  section_fails bad = true ->
  section_texts (before ++ bad :: after) =
  concat (map section_kept before) ++ section_kept bad.
Proof.
  intros Hb Hbad; induction before as [|sec before IH].
  - cbn [app map concat section_texts]; unfold section_fails, section_readable in Hbad.
    unfold section_kept.
    destruct (header_paragraphs bad); [|reflexivity].
    destruct (footer_paragraphs bad); [discriminate | rewrite app_nil_r; reflexivity].
  - cbn [forallb] in Hb; apply andb_true_iff in Hb as [Hsec Hb].
    cbn [app map concat section_texts]; rewrite (IH Hb).
    unfold section_readable in Hsec.
    destruct (header_paragraphs sec) as [h|] eqn:Eh; [|discriminate].
    destruct (footer_paragraphs sec) as [f|] eqn:Ef; [|discriminate].
    replace (section_kept sec) with (keep_nonblank h ++ keep_nonblank f)
      by (unfold section_kept; rewrite Eh, Ef; reflexivity).
    rewrite <- !app_assoc; reflexivity.
Qed.

(** Two sections; reading the footer of the second raises. *)
Lemma section_texts_until_failure_witness :
  let first := {| header_paragraphs := Ret [py "Ann Lee"];
                  footer_paragraphs := Ret [py "page 1"] |} in
  let bad := {| header_paragraphs := Ret [py "Ann Lee"; py "  "];
                footer_paragraphs := Raise (Exception (py "no footer part")) |} in
  let last := {| header_paragraphs := Ret [py "never read"];
                 footer_paragraphs := Ret [] |} in
  section_texts ([first] ++ bad :: [last]) = [py "Ann Lee"; py "page 1"; py "Ann Lee"].
Proof.
  cbv zeta.
  rewrite (section_texts_until_failure
             [{| header_paragraphs := Ret [py "Ann Lee"];
                 footer_paragraphs := Ret [py "page 1"] |}]
             [{| header_paragraphs := Ret [py "never read"];
                 footer_paragraphs := Ret [] |}]
             {| header_paragraphs := Ret [py "Ann Lee"; py "  "];
                footer_paragraphs := Raise (Exception (py "no footer part")) |}
             eq_refl eq_refl).
  vm_compute; reflexivity.
Defined.

(** ** The pipeline *)

Lemma prompt_for_empty : prompt_for [] = build_prompt [].
Proof. reflexivity. Qed.

(** X6.  The pipeline asks in a fixed order: the extraction, then the one
    request to the model, then the template.  The extraction step cannot
    end it; when the extraction fails, the error is shown and the model is
    still asked, with an empty resume text.  When the summarisation raises,
    the template is not opened. *)
Theorem pipeline_order (db : unicode_db) (L : libs) (svc : services) (P : pptx_lib)
    (input_path template_path output_path : pystr) :
  let run := pipeline db L svc P input_path template_path output_path in
  let ex := extract_text db L input_path in
  (exists text,
     result ex = Ret text /\
     match result (summarize_with_gemini db svc text) with
     | Ret data =>
         let fill := fill_ppt_template db P template_path data output_path in
         events run = events ex ++ GenerateContent model_name (prompt_for text)
                                   :: events fill /\
         result run = result fill
     | Raise e =>
         events run = events ex ++ [GenerateContent model_name (prompt_for text)] /\
         result run = Raise e
     end) /\
  match result (extract_body db L input_path) with
  | Raise e =>
      exists rest,
        events run = events (extract_body db L input_path)
                     ++ StError (error_message e)
                     :: GenerateContent model_name (build_prompt []) :: rest
  | Ret _ => True
  end.
Proof.
  cbv zeta.
  assert (Main : forall text, result (extract_text db L input_path) = Ret text ->
            match result (summarize_with_gemini db svc text) with
            | Ret data =>
                events (pipeline db L svc P input_path template_path output_path) =
                events (extract_text db L input_path)
                ++ GenerateContent model_name (prompt_for text)
                   :: events (fill_ppt_template db P template_path data output_path) /\
                result (pipeline db L svc P input_path template_path output_path) =
                result (fill_ppt_template db P template_path data output_path)
            | Raise e =>
                events (pipeline db L svc P input_path template_path output_path) =
                events (extract_text db L input_path)
                ++ [GenerateContent model_name (prompt_for text)] /\
                result (pipeline db L svc P input_path template_path output_path) = Raise e
            end).
  { intros text E; unfold pipeline.
    rewrite bind_events, bind_result, E, bind_events, bind_result.
    rewrite (summarize_unfold db svc text); cbn [events result fst snd].
    destruct (generate_content svc model_name (prompt_for text)) as [[t|]|e]; auto. }
  split.
  - rewrite extract_text_result.
    destruct (result (extract_body db L input_path)) as [s|e] eqn:E.
    + exists s; split; [reflexivity|].
      apply Main; rewrite extract_text_result, E; reflexivity.
    + exists []; split; [reflexivity|].
      apply Main; rewrite extract_text_result, E; reflexivity.
  - destruct (result (extract_body db L input_path)) as [s|e] eqn:E; [exact I|].
    assert (R : result (extract_text db L input_path) = Ret [])
      by (rewrite extract_text_result, E; reflexivity).
    assert (Ev : events (extract_text db L input_path)
                 = events (extract_body db L input_path) ++ [StError (error_message e)]).
    { unfold extract_text; rewrite try_except_events, E; reflexivity. }
    specialize (Main [] R); rewrite Ev, prompt_for_empty in Main.
    destruct (result (summarize_with_gemini db svc [])).
    + destruct Main as [-> _]; rewrite <- app_assoc; cbn [app]; eauto.
    + destruct Main as [-> _]; rewrite <- app_assoc; cbn [app]; eauto.
Qed.

(** ** The mapping of the fallback *)

Lemma dict_get_set (d : dict) (k k' : pystr) (v : json) :
  dict_get (dict_set d k v) k' = if str_eqb k' k then Some v else dict_get d k'.
Proof.
  induction d as [|[k0 v0] d IH]; cbn [dict_set dict_get]; [reflexivity|].
  destruct (str_eqb k k0) eqn:E; cbn [dict_get].
  - apply str_eqb_eq in E; subst k0.
    destruct (str_eqb k' k); reflexivity.
  - rewrite IH.
    destruct (str_eqb k' k0) eqn:E0; [|reflexivity].
    destruct (str_eqb k' k) eqn:E1; [|reflexivity].
    apply str_eqb_eq in E0, E1; subst; rewrite str_eqb_refl in E; discriminate.
Qed.

Lemma dict_set_nodup (d : dict) (k : pystr) (v : json) :
  NoDup (keys d) -> NoDup (keys (dict_set d k v)).
Proof.
  induction d as [|[k0 v0] d IH]; cbn [dict_set keys map fst]; intros H.
  - constructor; [intros [] | constructor].
  - inversion H as [|? ? Hin Hd]; subst.
    destruct (str_eqb k k0) eqn:E; cbn [map fst]; [exact H|].
    constructor; [|apply IH, Hd].
    intros Hin'; apply (keys_dict_set d k v k0) in Hin' as [->|Hin'];
      [rewrite str_eqb_refl in E; discriminate | contradiction].
Qed.

Lemma dict_set_all_strings (d : dict) (k s : pystr) :
  all_strings d = true -> all_strings (dict_set d k (JStr s)) = true.
Proof.
  unfold all_strings; induction d as [|[k0 v0] d IH]; cbn; [reflexivity|].
  intros H; apply andb_true_iff in H as [H0 H].
  destruct (str_eqb k k0); cbn; [exact H | rewrite H0, IH; auto].
Qed.

Lemma find_snoc {A} (f : A -> bool) (l : list A) (a : A) :
  find f (l ++ [a]) =
  match find f l with
  | Some x => Some x
  | None => if f a then Some a else None
  end.
Proof.
  induction l as [|x l IH]; cbn; [reflexivity|].
  destruct (f x); [reflexivity | exact IH].
Qed.

Section Assignments.

Variable key_of : caps -> pystr.
Variable text_of : caps -> pystr.

Let assign (data : dict) (g : caps) : dict :=
  dict_set data (key_of g) (JStr (text_of g)).

(** After a run of assignments a key holds what its last assignment gave
    it. *)
Lemma fold_assign_get (ms : list caps) :
  forall d k,
    dict_get (fold_left assign ms d) k =
    match find (fun g => str_eqb k (key_of g)) (rev ms) with
    | Some g => Some (JStr (text_of g))
    | None => dict_get d k
    end.
Proof.
  induction ms as [|g ms IH]; intros d k; cbn [fold_left rev]; [reflexivity|].
  rewrite IH, find_snoc; unfold assign; rewrite dict_get_set.
  destruct (find _ (rev ms)); [reflexivity|].
  destruct (str_eqb k (key_of g)); reflexivity.
Qed.

Lemma fold_assign_invariant (ms : list caps) :
  forall d, NoDup (keys d) -> all_strings d = true ->
    NoDup (keys (fold_left assign ms d)) /\ all_strings (fold_left assign ms d) = true.
Proof.
  induction ms as [|g ms IH]; intros d Hn Hs; cbn [fold_left]; [auto|].
  apply IH; [apply dict_set_nodup, Hn | apply dict_set_all_strings, Hs].
Qed.

End Assignments.

Lemma decode_pairs_invariant (db : unicode_db) (content : pystr) :
  NoDup (keys (decode_pairs db content)) /\
  all_strings (decode_pairs db content) = true.
Proof.
  unfold decode_pairs.
  apply (fold_assign_invariant (fun g => group g 1) (fun g => unescape (group g 2)));
    [constructor | reflexivity].
Qed.

(** X7.  The mapping of the regular-expression fallback has each captured
    key once, all its values are strings, and a key that was matched more
    than once holds the value of its last match, unescaped and stripped. *)
Theorem decode_pairs_last_wins (db : unicode_db) (content : pystr) :
  let d := decode_pairs db content in
  NoDup (keys d) /\
  all_strings d = true /\
  forall k, dict_get d k =
            match last_pair (re_finditer (pair_pattern db) content) k with
            | Some g => Some (JStr (unescape (group g 2)))
            | None => None
            end.
Proof.
  cbv zeta.
  destruct (decode_pairs_invariant db content) as [Hn Hs].
  split; [exact Hn|]; split; [exact Hs|].
  intros k; unfold decode_pairs, last_pair.
  rewrite (fold_assign_get (fun g => group g 1) (fun g => unescape (group g 2))).
  reflexivity.
Qed.

(** ** Lines, split and joined *)

Lemma split_on_cons (c : char) (s : pystr) : exists l ls, split_on c s = l :: ls.
Proof.
  induction s as [|x s (l & ls & E)]; cbn [split_on]; [eauto|].
  destruct (char_eqb x c); [eauto | rewrite E; eauto].
Qed.

(** Joining the lines of a text gives the text back. *)
Lemma join_split_on (c : char) (s : pystr) : join [c] (split_on c s) = s.
Proof.
  induction s as [|x s IH]; [reflexivity|].
  cbn [split_on]; destruct (char_eqb x c) eqn:E.
  - apply char_eqb_eq in E; subst x.
    destruct (split_on_cons c s) as (l & ls & El); rewrite El in *.
    change (join [c] ([] :: l :: ls)) with ([] ++ [c] ++ join [c] (l :: ls)).
    rewrite IH; reflexivity.
  - destruct (split_on_cons c s) as (l & ls & El); rewrite El in *.
    destruct ls as [|l' ls]; [cbn [join] in *; rewrite <- IH; reflexivity|].
    change (join [c] ((x :: l) :: l' :: ls))
      with (x :: l ++ [c] ++ join [c] (l' :: ls)).
    change (join [c] (l :: l' :: ls)) with (l ++ [c] ++ join [c] (l' :: ls)) in IH.
    rewrite IH; reflexivity.
Qed.

(** The first line is the start of the text. *)
Lemma split_on_first (c : char) (s l : pystr) (ls : list pystr) :
  split_on c s = l :: ls -> exists rest, s = l ++ rest.
Proof.
  revert l ls; induction s as [|x s IH]; intros l ls; cbn [split_on].
  - intros E; inversion E; exists []; reflexivity.
  - destruct (char_eqb x c).
    + intros E; inversion E; exists (x :: s); reflexivity.
    + destruct (split_on_cons c s) as (l0 & ls0 & El); rewrite El.
      intros E; inversion E; subst l ls.
      destruct (IH _ _ El) as (rest & ->); exists rest; reflexivity.
Qed.

(** What does not occur in a text occurs in none of its lines. *)
Lemma split_on_contains (c : char) (sub s : pystr) :
  contains s sub = false ->
  Forall (fun l => contains l sub = false) (split_on c s).
Proof.
  induction s as [|x s IH]; intros H.
  - constructor; [exact H | constructor].
  - assert (Hnil : contains [] sub = false).
    { destruct sub; [discriminate | reflexivity]. }
    cbn [contains] in H; apply orb_false_iff in H as [Hp Hs].
    specialize (IH Hs); cbn [split_on].
    destruct (char_eqb x c); [constructor; assumption|].
    destruct (split_on_cons c s) as (l & ls & El); rewrite El in *.
    inversion IH as [|? ? Hl Hls]; subst.
    constructor; [|exact Hls].
    cbn [contains]; rewrite Hl, orb_false_r.
    destruct (split_on_first c s l ls El) as (rest & ->).
    destruct (is_prefix sub (x :: l)) eqn:E; [|reflexivity].
    apply (is_prefix_app _ _ rest) in E; cbn [app] in E; congruence.
Qed.

Lemma xml_compatible_NL : xml_compatible NL = true.
Proof. reflexivity. Qed.

(** A text can be stored when its lines can, and the other way round. *)
Lemma storable_split_on (s : pystr) : forallb storable (split_on NL s) = storable s.
Proof.
  induction s as [|x s IH]; [reflexivity|].
  cbn [split_on]; destruct (char_eqb x NL) eqn:E.
  - apply char_eqb_eq in E; subst x; cbn [forallb]; rewrite IH; reflexivity.
  - destruct (split_on_cons NL s) as (l & ls & El); rewrite El in *.
    cbn [forallb] in *.
    change (storable (x :: l)) with (xml_compatible x && storable l).
    change (storable (x :: s)) with (xml_compatible x && storable s).
    rewrite <- IH, andb_assoc; reflexivity.
Qed.

Lemma storable_join (l : list pystr) : storable (join [NL] l) = forallb storable l.
Proof.
  induction l as [|x l IH]; [reflexivity|].
  destruct l as [|y l]; [cbn; rewrite andb_true_r; reflexivity|].
  change (join [NL] (x :: y :: l)) with (x ++ [NL] ++ join [NL] (y :: l)).
  cbn [forallb] in *; rewrite <- IH.
  unfold storable; rewrite !forallb_app; cbn [forallb].
  rewrite xml_compatible_NL; reflexivity.
Qed.

(** The newline is not escaped, so escaping goes line by line. *)
Lemma escape_join (l : list pystr) :
  escape_ctrl_chars (join [NL] l) = join [NL] (map escape_ctrl_chars l).
Proof.
  induction l as [|x l IH]; [reflexivity|].
  destruct l as [|y l]; [reflexivity|].
  change (join [NL] (x :: y :: l)) with (x ++ [NL] ++ join [NL] (y :: l)).
  change (join [NL] (map escape_ctrl_chars (x :: y :: l)))
    with (escape_ctrl_chars x ++ [NL] ++ join [NL] (map escape_ctrl_chars (y :: l))).
  rewrite <- IH; unfold escape_ctrl_chars; rewrite !flat_map_app; reflexivity.
Qed.

(** ** Text without bold markers *)

(** The span pattern matches only where two stars stand. *)
Lemma bold_match_starts (s : pystr) (n : nat) (g : caps) :
  match_at bold_pattern s = Some (n, g) -> is_prefix (py "**") s = true.
Proof.
  intros H; apply match_at_group1 in H as [_ L].
  apply bold_span_words in L as (mid & E & _).
  rewrite <- (firstn_skipn n s), E.
  change (py "**" ++ mid ++ py "**") with (42 :: 42 :: mid ++ py "**")%N.
  reflexivity.
Qed.

Lemma split_go_plain (s : pystr) :
  contains s (py "**") = false ->
  forall cur, split_go bold_pattern 0 cur s = [rev cur ++ s].
Proof.
  induction s as [|c s IH]; intros H cur; cbn [split_go].
  - rewrite app_nil_r; reflexivity.
  - cbn [contains] in H; apply orb_false_iff in H as [Hp Hs].
    destruct (match_at bold_pattern (c :: s)) as [[[|n] g]|] eqn:E.
    + rewrite (IH Hs); cbn [rev]; rewrite <- app_assoc; reflexivity.
    + apply bold_match_starts in E; congruence.
    + rewrite (IH Hs); cbn [rev]; rewrite <- app_assoc; reflexivity.
Qed.

Lemma contains_false_start (s sub : pystr) :
  contains s sub = false -> is_prefix sub s = false.
Proof.
  destruct s; cbn [contains]; [auto|].
  intros H; apply orb_false_iff in H as [H _]; exact H.
Qed.

Lemma plain_pieces (text : pystr) :
  contains text (py "**") = false -> re_split bold_pattern text = [text].
Proof.
  intros H; unfold re_split; rewrite (split_go_plain text H []); reflexivity.
Qed.

Lemma stored_run_plain (text : pystr) :
  contains text (py "**") = false ->
  stored_run text = {| run_text := escape_ctrl_chars text; run_font := plain_font |}.
Proof.
  intros H; unfold stored_run, startswith.
  rewrite (contains_false_start _ _ H); reflexivity.
Qed.

(** X12.  A text that holds no two stars in a row and no character that
    XML refuses is added to the paragraph as one run, not bold, holding the
    text with its control characters escaped; a text without control
    characters is held as it is. *)
Theorem apply_bold_markdown_plain (p : paragraph) (text : pystr) :
  contains text (py "**") = false ->
  storable text = true ->
  exists p',
    apply_bold_markdown p text = Ret p' /\
    runs p' = runs p ++ [{| run_text := escape_ctrl_chars text; run_font := plain_font |}] /\
    paragraph_text p' = paragraph_text p ++ escape_ctrl_chars text /\
    bold_texts (text_box_of p') = bold_texts (text_box_of p) /\
    (no_control text = true -> paragraph_text p' = paragraph_text p ++ text).
Proof.
  intros H Hs; rewrite apply_bold_markdown_outcome, Hs, (plain_pieces text H).
  cbn [map]; rewrite (stored_run_plain text H).
  eexists; split; [reflexivity|]; cbn [runs].
  assert (T : paragraph_text
                {| runs := runs p ++ [{| run_text := escape_ctrl_chars text;
                                         run_font := plain_font |}];
                   space_after := space_after p |}
              = paragraph_text p ++ escape_ctrl_chars text).
  { unfold paragraph_text; cbn [runs]; rewrite map_app, concat_app; cbn.
    rewrite !app_nil_r; reflexivity. }
  split; [reflexivity|]; split; [exact T|]; split.
  - unfold bold_texts, text_box_of; cbn [runs paragraphs map concat].
    rewrite !app_nil_r, filter_app; cbn; rewrite app_nil_r; reflexivity.
  - intros Hc; rewrite T, (escape_no_control text Hc); reflexivity.
Qed.

(** A line with single stars only is held as it is; a line that ends in a
    carriage return is held with the carriage return spelled out. *)
Lemma apply_bold_markdown_plain_witness :
  contains (py "* Built a pipeline * in SQL") (py "**") = false /\
  storable (py "* Built a pipeline * in SQL") = true /\
  (exists p', apply_bold_markdown empty_paragraph (py "* Built a pipeline * in SQL") = Ret p' /\
              runs p' = [{| run_text := py "* Built a pipeline * in SQL";
                            run_font := plain_font |}]) /\
  (exists p', apply_bold_markdown empty_paragraph (py "Ann" ++ [13]%N) = Ret p' /\
              runs p' = [{| run_text := py "Ann_x000D_"; run_font := plain_font |}]).
Proof.
  split; [reflexivity|]; split; [reflexivity|]; split.
  - destruct (apply_bold_markdown_plain empty_paragraph
                (py "* Built a pipeline * in SQL") eq_refl eq_refl) as (p' & E & R & _).
    exists p'; split; [exact E | exact R].
  - destruct (apply_bold_markdown_plain empty_paragraph
                (py "Ann" ++ [13]%N) eq_refl eq_refl) as (p' & E & R & _).
    exists p'; split; [exact E | exact R].
Defined.

(** ** What a rewritten box looks like *)

Lemma add_lines_outcome (lines : list pystr) :
  forall ps,
    for_each add_line lines ps
    = if forallb storable lines then Ret (ps ++ map rendered_line lines)
      else Raise xml_error.
Proof.
  induction lines as [|line lines IH]; intros ps; cbn [for_each forallb map].
  - rewrite app_nil_r; reflexivity.
  - unfold add_line at 1; rewrite apply_bold_markdown_outcome.
    destruct (storable line); cbn [and_then andb]; [|reflexivity].
    rewrite IH; destruct (forallb storable lines); [|reflexivity].
    rewrite <- app_assoc; reflexivity.
Qed.

Lemma stored_run_storable (part : pystr) :
  storable (run_text (stored_run part)) = storable part.
Proof.
  unfold stored_run.
  destruct (startswith part (py "**") && endswith part (py "**")) eqn:E;
    cbn [run_text bold_run]; rewrite escape_storable;
    [apply marked_slice_storable, E | reflexivity].
Qed.

(** The text of the paragraph of a line can be stored when the line can. *)
Lemma rendered_line_storable (line : pystr) :
  storable (paragraph_text (rendered_line line)) = storable line.
Proof.
  unfold paragraph_text, rendered_line; cbn [runs].
  rewrite storable_concat, map_map.
  transitivity (forallb storable (re_split bold_pattern line)).
  - induction (re_split bold_pattern line) as [|x l IH]; cbn [map forallb];
      [reflexivity | rewrite stored_run_storable, IH; reflexivity].
  - rewrite <- storable_concat; unfold re_split, bold_pattern.
    rewrite split_go_concat; reflexivity.
Qed.

Lemma rendered_line_plain (line : pystr) :
  contains line (py "**") = false ->
  paragraph_text (rendered_line line) = escape_ctrl_chars line.
Proof.
  intros H; unfold paragraph_text, rendered_line; cbn [runs].
  rewrite (plain_pieces line H); cbn [map]; rewrite (stored_run_plain line H).
  cbn; apply app_nil_r.
Qed.

Lemma map_runs_spacing (g : run -> run) (ps : list paragraph) (n : Z) :
  Forall (fun p => space_after p = Some n) ps ->
  Forall (fun p => space_after p = Some n) (map_runs g ps).
Proof.
  unfold map_runs; intros H; apply Forall_map.
  eapply Forall_impl; [|exact H]; intros p Hp; exact Hp.
Qed.

Lemma map_runs_all (Q : run -> Prop) (g : run -> run) (ps : list paragraph) :
  (forall r, Q (g r)) -> Forall Q (concat (map runs (map_runs g ps))).
Proof.
  intros Hg; unfold map_runs; rewrite map_map; cbn [runs].
  apply Forall_concat, Forall_map, Forall_forall; intros p _.
  apply Forall_map, Forall_forall; intros r _; apply Hg.
Qed.

Lemma map_runs_map_runs (f g : run -> run) (ps : list paragraph) :
  map_runs g (map_runs f ps) = map_runs (fun r => g (f r)) ps.
Proof.
  unfold map_runs; rewrite map_map; apply map_ext; intros p; cbn [runs space_after].
  rewrite map_map; reflexivity.
Qed.

Lemma key_rgb_cases (key : pystr) :
  key_rgb key = (255, 255, 255)%Z \/ key_rgb key = (40, 40, 40)%Z.
Proof. unfold key_rgb; destruct (existsb _ _); auto. Qed.

Lemma map_runs_ext (f g : run -> run) (ps : list paragraph) :
  (forall r, f r = g r) -> map_runs f ps = map_runs g ps.
Proof.
  intros H; unfold map_runs; apply map_ext; intros p; f_equal; apply map_ext, H.
Qed.

Lemma map_runs_texts (f : run -> run) (ps : list paragraph) :
  (forall r, run_text (f r) = run_text r) ->
  map paragraph_text (map_runs f ps) = map paragraph_text ps.
Proof.
  intros H; unfold map_runs; rewrite map_map; apply map_ext; intros p.
  unfold paragraph_text; cbn [runs]; rewrite map_map; f_equal; apply map_ext, H.
Qed.

Lemma total_chars_texts (ps qs : list paragraph) :
  map paragraph_text ps = map paragraph_text qs -> total_chars ps = total_chars qs.
Proof.
  unfold total_chars; intros H.
  rewrite <- (map_map paragraph_text (fun t => Z.of_nat (length t)) ps),
          <- (map_map paragraph_text (fun t => Z.of_nat (length t)) qs), H.
  reflexivity.
Qed.

(** A text that can be stored is written into a text box without an
    exception: the box gets an empty paragraph and then the paragraph of
    each line. *)
Lemma rewrite_shape_returns (key new_text : pystr) (sh : shape) :
  has_text_frame sh = true ->
  storable new_text = true ->
  exists sh',
    rewrite_shape key new_text sh = Ret sh' /\
    has_text_frame sh' = true /\
    map paragraph_text (paragraphs sh')
    = [] :: map (fun line => paragraph_text (rendered_line line)) (split_on NL new_text).
Proof.
  intros Hf Hs; unfold rewrite_shape; cbv zeta; cbn [tf_clear].
  rewrite add_lines_outcome, storable_split_on, Hs; cbn [and_then].
  rewrite auto_fit_text_default by exact Hf.
  eexists; split; [reflexivity|]; split; [exact Hf|].
  unfold with_paragraphs; cbn [paragraphs].
  rewrite !map_runs_texts by reflexivity.
  cbn [app map]; rewrite map_map; reflexivity.
Qed.

Lemma rewrite_shape_formatted (key new_text : pystr) (sh sh' : shape) :
  rewrite_shape key new_text sh = Ret sh' -> formatted sh'.
Proof.
  unfold rewrite_shape; cbv zeta; cbn [tf_clear].
  rewrite add_lines_outcome; destruct (forallb storable _); cbn [and_then];
    [|discriminate].
  destruct (has_text_frame sh).
  2:{ unfold auto_fit_text; cbn [has_text_frame negb]; discriminate. }
  rewrite auto_fit_text_default by reflexivity.
  intros E; inversion E; subst sh'; clear E.
  unfold with_paragraphs, formatted; cbn [word_wrap vertical_anchor paragraphs].
  split; [reflexivity|]; split; [reflexivity|]; split.
  - eexists; split; [reflexivity|].
    do 2 apply map_runs_spacing.
    apply Forall_map, Forall_forall; intros line _; reflexivity.
  - rewrite fitted_size_default, map_runs_map_runs.
    apply map_runs_all; intros r; unfold run_formatted.
    cbn [run_font set_size set_rgb set_name font_name font_size font_rgb].
    split; [reflexivity|]; split.
    + destruct (800 <? _)%Z; auto.
    + destruct (key_rgb_cases key) as [-> | ->]; auto.
Qed.

Lemma fill_items_formats (db : unicode_db) (items : dict) :
  forall sh sh', fill_items db items sh = Ret sh' -> sh' = sh \/ formatted sh'.
Proof.
  induction items as [|[key val] rest IH]; intros sh sh' H; cbn [fill_items] in H.
  - inversion H; auto.
  - destruct (contains _ _); [|apply IH, H].
    destruct val; try discriminate.
    destruct (rewrite_shape _ _ _) as [sh1|] eqn:E; cbn [and_then] in H; [|discriminate].
    apply IH in H as [-> | H]; [right; eapply rewrite_shape_formatted, E | auto].
Qed.

(** X10.  A shape comes out of the filling either as it went in or
    formatted throughout: wrapped, anchored at the top, an empty paragraph
    followed by paragraphs spaced by 4 points, every run in Aptos, at 9 or
    11 points, white or dark grey. *)
Theorem fill_shape_formats (db : unicode_db) (data : dict) (sh : shape) :
  match fill_shape db data sh with
  | Ret sh' => sh' = sh \/ formatted sh'
  | Raise _ => True
  end.
Proof.
  unfold fill_shape; destruct (has_text_frame sh); [|auto].
  destruct (fill_items db data sh) as [sh'|] eqn:E; [|exact I].
  eapply fill_items_formats, E.
Qed.

(** X13.  A text without two stars in a row and without a character that
    XML refuses is written into a text box without an exception, and
    [shape.text] then reads back as one newline followed by that text with
    its control characters escaped (by the text itself when it has none):
    the emptied first paragraph stays in front of the paragraphs of the
    lines. *)
Theorem rewrite_shape_text (key new_text : pystr) (sh : shape) :
  has_text_frame sh = true ->
  contains new_text (py "**") = false ->
  storable new_text = true ->
  exists sh',
    rewrite_shape key new_text sh = Ret sh' /\
    shape_text sh' = NL :: escape_ctrl_chars new_text /\
    length (paragraphs sh') = S (length (split_on NL new_text)) /\
    (no_control new_text = true -> shape_text sh' = NL :: new_text).
Proof.
  intros Hf H Hs.
  destruct (rewrite_shape_returns key new_text sh Hf Hs) as (sh' & E & _ & T).
  assert (T' : shape_text sh' = NL :: escape_ctrl_chars new_text).
  { unfold shape_text, frame_text; rewrite T.
    rewrite (map_ext_in _ escape_ctrl_chars).
    - rewrite <- (join_split_on NL new_text) at 2; rewrite escape_join.
      destruct (split_on_cons NL new_text) as (l & ls & El); rewrite El; reflexivity.
    - intros line Hin; apply rendered_line_plain.
      apply (proj1 (Forall_forall _ _) (split_on_contains NL _ _ H)), Hin. }
  exists sh'; split; [exact E|]; split; [exact T'|]; split.
  - rewrite <- (length_map paragraph_text), T; cbn [length]; rewrite length_map.
    reflexivity.
  - intros Hc; rewrite T', (escape_no_control new_text Hc); reflexivity.
Qed.

(** Two lines for a box, the first ending in a carriage return. *)
Lemma rewrite_shape_text_witness :
  has_text_frame (text_box (py "{{NAME}}")) = true /\
  contains (py "Ann Lee" ++ [13; NL]%N ++ py "Pune") (py "**") = false /\
  storable (py "Ann Lee" ++ [13; NL]%N ++ py "Pune") = true /\
  exists sh',
    rewrite_shape (py "name") (py "Ann Lee" ++ [13; NL]%N ++ py "Pune")
      (text_box (py "{{NAME}}")) = Ret sh' /\
    shape_text sh' = NL :: py "Ann Lee_x000D_" ++ [NL] ++ py "Pune" /\
    length (paragraphs sh') = 3%nat.
Proof.
  split; [reflexivity|]; split; [reflexivity|]; split; [reflexivity|].
  destruct (rewrite_shape_text (py "name") (py "Ann Lee" ++ [13; NL]%N ++ py "Pune")
              (text_box (py "{{NAME}}")) eq_refl eq_refl eq_refl)
    as (sh' & E & T & L & _).
  exists sh'; split; [exact E|]; split; [exact T | exact L].
Defined.

(** ** Filling with strings *)

Lemma replace_go_storable (old new : pystr) :
  storable new = true ->
  forall s skip, storable s = true -> storable (replace_go old new skip s) = true.
Proof.
  unfold storable; intros Hn; induction s as [|c s IH]; intros skip H;
    cbn [replace_go]; [reflexivity|].
  cbn [forallb] in H; apply andb_true_iff in H as [Hc Hs].
  destruct skip as [|k]; [|apply IH, Hs].
  destruct (is_prefix old (c :: s)).
  - rewrite forallb_app, Hn; apply IH, Hs.
  - cbn [forallb]; rewrite Hc; apply IH, Hs.
Qed.

Lemma str_replace_storable (s old new : pystr) :
  storable s = true -> storable new = true -> storable (str_replace s old new) = true.
Proof.
  intros Hs Hn; unfold str_replace; destruct old as [|o old];
    [|apply replace_go_storable; assumption].
  unfold storable in *; rewrite forallb_app, Hn; cbn [andb].
  induction s as [|c s IH]; [reflexivity|].
  cbn [forallb] in Hs; apply andb_true_iff in Hs as [Hc Hs].
  cbn [flat_map app forallb]; rewrite Hc, forallb_app, Hn; apply IH, Hs.
Qed.

(** What a rewritten box holds can be stored again. *)
Lemma rewrite_shape_storable (key new_text : pystr) (sh : shape) :
  has_text_frame sh = true ->
  storable new_text = true ->
  exists sh',
    rewrite_shape key new_text sh = Ret sh' /\
    has_text_frame sh' = true /\
    storable (shape_text sh') = true.
Proof.
  intros Hf Hs.
  destruct (rewrite_shape_returns key new_text sh Hf Hs) as (sh' & E & F & T).
  exists sh'; split; [exact E|]; split; [exact F|].
  unfold shape_text, frame_text; rewrite T, storable_join; cbn [forallb].
  clear E T; rewrite <- storable_split_on in Hs.
  change (storable [] && ?b) with b.
  induction (split_on NL new_text) as [|l ls IH]; [reflexivity|].
  cbn [forallb map] in *; apply andb_true_iff in Hs as [Hl Hls].
  rewrite rendered_line_storable, Hl; apply IH, Hls.
Qed.

Lemma fill_items_total (db : unicode_db) (items : dict) :
  all_strings items = true ->
  storable_values items = true ->
  forall sh, has_text_frame sh = true -> storable (shape_text sh) = true ->
    exists sh', fill_items db items sh = Ret sh' /\ has_text_frame sh' = true.
Proof.
  unfold all_strings, storable_values;
    induction items as [|[key val] rest IH]; intros H Hv sh Hf Ht.
  - exists sh; auto.
  - cbn [forallb snd] in H, Hv.
    apply andb_true_iff in H as [H Hrest]; apply andb_true_iff in Hv as [Hv Hvrest].
    cbn [fill_items]; destruct (contains _ _); [|apply IH; assumption].
    destruct val; try discriminate.
    destruct (rewrite_shape_storable key
                (str_replace (shape_text sh) (placeholder db key) s) sh Hf
                (str_replace_storable _ _ _ Ht Hv))
      as (sh1 & E & F1 & T1).
    rewrite E; cbn [and_then]; apply IH; assumption.
Qed.

Lemma map_outcome_total {A B} (R : A -> B -> Prop) (g : A -> outcome B) (l : list A) :
  (forall a, In a l -> exists b, g a = Ret b /\ R a b) ->
  exists l', map_outcome g l = Ret l' /\ Forall2 R l l'.
Proof.
  induction l as [|a l IH]; intros Hg.
  - exists []; split; [reflexivity | constructor].
  - destruct (Hg a (or_introl eq_refl)) as (b & Eb & Rb).
    destruct IH as (l' & E & F); [intros x Hx; apply Hg; right; exact Hx|].
    exists (b :: l'); cbn [map_outcome]; rewrite Eb, E; split; [reflexivity|].
    constructor; assumption.
Qed.

Lemma fill_shape_total (db : unicode_db) (data : dict) :
  all_strings data = true ->
  storable_values data = true ->
  forall sh, storable (shape_text sh) = true ->
    exists sh', fill_shape db data sh = Ret sh' /\
                has_text_frame sh' = has_text_frame sh.
Proof.
  intros H Hv sh Ht; unfold fill_shape; destruct (has_text_frame sh) eqn:E.
  - destruct (fill_items_total db data H Hv sh E Ht) as (sh' & E' & F).
    exists sh'; split; [exact E' | exact F].
  - exists sh; auto.
Qed.

Lemma fill_slides_storable (db : unicode_db) (data : dict) (prs : presentation) :
  all_strings data = true ->
  storable_values data = true ->
  storable_presentation prs = true ->
  exists prs', fill_slides db data prs = Ret prs' /\ same_layout prs prs'.
Proof.
  intros H Hv Hp; unfold fill_slides, same_layout.
  unfold storable_presentation in Hp.
  apply map_outcome_total; intros sl Hsl.
  apply map_outcome_total; intros sh Hsh.
  apply fill_shape_total; [exact H | exact Hv |].
  apply (proj1 (forallb_forall _ _) (proj1 (forallb_forall _ _) Hp sl Hsl) sh Hsh).
Qed.

(** X8.  When every value of the data is a string, and neither a value nor
    a text of the template holds a character that XML refuses, filling
    cannot raise: the presentation is filled, with the same slides and the
    same shapes in the same places, each still with or without its text
    frame. *)
Theorem fill_slides_total (db : unicode_db) (data : dict) (prs : presentation) :
  all_strings data = true ->
  storable_values data = true ->
  storable_presentation prs = true ->
  exists prs', fill_slides db data prs = Ret prs' /\ same_layout prs prs'.
Proof. apply fill_slides_storable. Qed.

(** A slide with a picture and a name box, filled with a name. *)
Lemma fill_slides_total_witness :
  all_strings [(py "name", JStr (py "Ann"))] = true /\
  storable_values [(py "name", JStr (py "Ann"))] = true /\
  storable_presentation [[picture; text_box (py "{{NAME}}")]] = true /\
  exists prs', fill_slides ascii_db [(py "name", JStr (py "Ann"))]
                 [[picture; text_box (py "{{NAME}}")]] = Ret prs' /\
               same_layout [[picture; text_box (py "{{NAME}}")]] prs'.
Proof.
  split; [reflexivity|]; split; [reflexivity|]; split; [reflexivity|].
  apply (fill_slides_total ascii_db [(py "name", JStr (py "Ann"))]
           [[picture; text_box (py "{{NAME}}")]]); reflexivity.
Defined.

(** ** What the groups of a match hold *)

Section Captures.

Variable q : char -> bool.

Lemma forallb_firstn (n : nat) (s : pystr) :
  forallb q s = true -> forallb q (firstn n s) = true.
Proof.
  revert n; induction s as [|c s IH]; intros [|n] H; cbn [firstn forallb]; auto.
  cbn [forallb] in H; apply andb_true_iff in H as [Hc Hs].
  rewrite Hc; apply IH, Hs.
Qed.

(** The groups of a match are parts of the text: a test that all
    characters of the text pass, the characters of the groups pass. *)
Lemma rmatch_captures (r : regex) :
  forall s c k res,
    forallb q s = true -> captures_all q c ->
    (forall s' c' res', forallb q s' = true -> captures_all q c' ->
                        k s' c' = Some res' -> captures_all q (snd res')) ->
    rmatch r s c k = Some res -> captures_all q (snd res).
Proof.
  induction r as [|p|r1 IH1 r2 IH2|g r1 IH1|i r1 IH1|r1 IH1];
    intros s c k res Hs Hc Hk H; cbn [rmatch] in H.
  - eapply Hk; eauto.
  - destruct s as [|x s']; [discriminate|].
    destruct (p x); [|discriminate].
    cbn [forallb] in Hs; apply andb_true_iff in Hs as [_ Hs].
    eapply Hk; eauto.
  - eapply IH1; [exact Hs | exact Hc | | exact H].
    intros s' c' res' Hs' Hc' H'; eapply IH2; eauto.
  - assert (Hloop : forall n s c res,
              forallb q s = true -> captures_all q c ->
              star_loop (rmatch r1) g k n s c = Some res -> captures_all q (snd res)).
    { induction n as [|n IHn]; intros s0 c0 res0 Hs0 Hc0 H0; cbn [star_loop] in H0.
      - eapply Hk; eauto.
      - assert (Hmore : forall x,
                  rmatch r1 s0 c0
                    (fun s' c' => if (length s' <? length s0)%nat
                                  then star_loop (rmatch r1) g k n s' c' else None)
                  = Some x -> captures_all q (snd x)).
        { intros x E; eapply IH1; [exact Hs0 | exact Hc0 | | exact E].
          intros s' c' res' Hs' Hc' H'; cbv beta in H'.
          destruct (length s' <? length s0)%nat; [|discriminate].
          eapply IHn; eauto. }
        destruct g.
        + destruct (rmatch r1 s0 c0 _) as [x|] eqn:E.
          * inversion H0; subst x; apply (Hmore _ eq_refl).
          * eapply Hk; eauto.
        + destruct (k s0 c0) as [x|] eqn:Ek.
          * inversion H0; subst x; eapply Hk; eauto.
          * apply Hmore, H0. }
    eapply Hloop; eauto.
  - eapply IH1; [exact Hs | exact Hc | | exact H].
    intros s' c' res' Hs' Hc' H'; cbv beta in H'.
    eapply Hk; [exact Hs' | | exact H'].
    constructor; [apply forallb_firstn, Hs | exact Hc'].
  - destruct (rmatch r1 s c _); [|discriminate].
    eapply Hk; eauto.
Qed.

Lemma match_at_captures (r : regex) (s : pystr) (n : nat) (g : caps) :
  forallb q s = true -> match_at r s = Some (n, g) -> captures_all q g.
Proof.
  unfold match_at; intros Hs H.
  destruct (rmatch r s [] _) as [[s' c']|] eqn:E; [|discriminate].
  inversion H; subst n g; clear H.
  change c' with (snd (s', c')).
  eapply rmatch_captures; [exact Hs | constructor | | exact E].
  intros s1 c1 res1 _ Hc1 H1; inversion H1; exact Hc1.
Qed.

Lemma group_captures (g : caps) (i : nat) :
  captures_all q g -> forallb q (group g i) = true.
Proof.
  induction 1 as [|[j t] g Ht _ IH]; cbn [group]; [reflexivity|].
  destruct (Nat.eqb i j); [exact Ht | exact IH].
Qed.

Lemma finditer_go_captures (r : regex) :
  forall s skip, forallb q s = true ->
    Forall (captures_all q) (finditer_go r skip s).
Proof.
  induction s as [|c s IH]; intros skip H; cbn [finditer_go]; [constructor|].
  pose proof H as H'; cbn [forallb] in H'; apply andb_true_iff in H' as [_ Hs].
  destruct skip as [|k]; [|apply IH, Hs].
  destruct (match_at r (c :: s)) as [[[|n] g]|] eqn:E; try (apply IH, Hs).
  constructor; [exact (match_at_captures r (c :: s) (S n) g H E) | apply IH, Hs].
Qed.

End Captures.

Lemma dict_set_storable (d : dict) (k v : pystr) :
  storable_values d = true -> storable v = true ->
  storable_values (dict_set d k (JStr v)) = true.
Proof.
  unfold storable_values; intros H Hv.
  induction d as [|[k0 v0] d IH]; cbn [dict_set forallb snd];
    [rewrite Hv; reflexivity|].
  cbn [forallb snd] in H; apply andb_true_iff in H as [H0 H].
  destruct (str_eqb k k0); cbn [forallb snd]; [rewrite Hv; exact H|].
  rewrite H0; apply IH, H.
Qed.

Lemma unescape_storable (v : pystr) : storable v = true -> storable (unescape v) = true.
Proof.
  intros H; unfold unescape.
  apply forallb_strip, str_replace_storable; [exact H | reflexivity].
Qed.

(** The values that the fallback finds in a response are parts of the
    response: they can be stored when the response can. *)
Lemma decode_pairs_storable (db : unicode_db) (content : pystr) :
  storable content = true -> storable_values (decode_pairs db content) = true.
Proof.
  intros H; unfold decode_pairs, re_finditer.
  pose proof (finditer_go_captures xml_compatible (pair_pattern db) content 0 H) as F.
  assert (G : storable_values [] = true) by reflexivity.
  revert F G; generalize (@nil (pystr * json)).
  induction (finditer_go (pair_pattern db) 0 content) as [|m ms IH]; intros d F G;
    cbn [fold_left]; [exact G|].
  inversion F as [|? ? Hm Hms]; subst.
  apply IH; [exact Hms|].
  apply dict_set_storable; [exact G|].
  apply unescape_storable, group_captures, Hm.
Qed.

(** X9.  The mapping that the fallback builds from a response fills a
    presentation without an exception, when neither the response nor a
    text of the template holds a character that XML refuses: every value
    of that mapping is a string and a part of the response. *)
Theorem fallback_data_fills (db : unicode_db) (content : pystr) (prs : presentation) :
  storable content = true ->
  storable_presentation prs = true ->
  storable_values (decode_pairs db content) = true /\
  exists prs', fill_slides db (decode_pairs db content) prs = Ret prs' /\
               same_layout prs prs'.
Proof.
  intros Hc Hp; split; [apply decode_pairs_storable, Hc|].
  apply fill_slides_storable;
    [apply decode_pairs_invariant | apply decode_pairs_storable, Hc | exact Hp].
Qed.

(** A response that is no JSON but holds the pair of a name. *)
Lemma fallback_data_fills_witness :
  storable (py "Here you go: " ++ answer_one_key) = true /\
  storable_presentation [[picture; text_box (py "{{NAME}}")]] = true /\
  decode_pairs ascii_db (py "Here you go: " ++ answer_one_key)
    = [(py "name", JStr (py "Ann"))] /\
  exists prs', fill_slides ascii_db (decode_pairs ascii_db (py "Here you go: " ++ answer_one_key))
                 [[picture; text_box (py "{{NAME}}")]] = Ret prs' /\
               same_layout [[picture; text_box (py "{{NAME}}")]] prs'.
Proof.
  split; [reflexivity|]; split; [reflexivity|]; split; [vm_compute; reflexivity|].
  apply (proj2 (fallback_data_fills ascii_db (py "Here you go: " ++ answer_one_key)
                  [[picture; text_box (py "{{NAME}}")]] eq_refl eq_refl)).
Defined.

(** ** Sizing leaves the rest alone *)

(** X11.  Where [auto_fit_text] is given a shape with a text frame, a bound
    that fits a float and bounds that lead to a size a font takes (1 to
    4000 points), it returns, and it has changed font sizes and nothing
    else: texts, bold, font names and colours, paragraphs and their spacing
    stay, and so does the text of the shape; fitting a second time changes
    nothing. *)
Theorem auto_fit_text_only_sizes (sh : shape) (max_size min_size : Z) :
  has_text_frame sh = true ->
  float_overflows max_size = false ->
  accepted_size (fitted_size max_size min_size (total_chars (paragraphs sh))) = true ->
  exists fitted,
    auto_fit_text sh max_size min_size = Ret fitted /\
    resized (fitted_size max_size min_size (total_chars (paragraphs sh))) sh fitted /\
    erase_sizes fitted = erase_sizes sh /\
    shape_text fitted = shape_text sh /\
    auto_fit_text fitted max_size min_size = Ret fitted.
Proof.
  intros Hf Ho Ha.
  rewrite (auto_fit_text_accepted sh max_size min_size Hf Ho Ha).
  eexists; split; [reflexivity|].
  set (n := fitted_size max_size min_size (total_chars (paragraphs sh))) in *.
  set (fitted := with_paragraphs sh _).
  assert (T : map paragraph_text (paragraphs fitted) = map paragraph_text (paragraphs sh)).
  { unfold fitted, with_paragraphs; cbn [paragraphs].
    apply map_runs_texts; reflexivity. }
  split; [apply map_runs_resized|]; split; [|split].
  - unfold erase_sizes, fitted, with_paragraphs;
      cbn [paragraphs has_text_frame word_wrap vertical_anchor].
    rewrite map_runs_map_runs; reflexivity.
  - unfold shape_text, frame_text; rewrite T; reflexivity.
  - rewrite auto_fit_text_accepted;
      [| exact Hf | exact Ho | rewrite (total_chars_texts _ _ T); exact Ha].
    rewrite (total_chars_texts _ _ T); fold n.
    unfold fitted, with_paragraphs;
      cbn [paragraphs has_text_frame word_wrap vertical_anchor].
    rewrite map_runs_map_runs; reflexivity.
Qed.

(** A title box fitted between 24 and 40 points. *)
Lemma auto_fit_text_only_sizes_witness :
  has_text_frame (text_box (py "Ann Lee")) = true /\
  float_overflows 40 = false /\
  fitted_size 40 24 (total_chars (paragraphs (text_box (py "Ann Lee")))) = 40%Z /\
  exists fitted,
    auto_fit_text (text_box (py "Ann Lee")) 40 24 = Ret fitted /\
    resized 40 (text_box (py "Ann Lee")) fitted /\
    shape_text fitted = py "Ann Lee" /\
    auto_fit_text fitted 40 24 = Ret fitted.
Proof.
  split; [reflexivity|]; split; [vm_compute; reflexivity|];
    split; [vm_compute; reflexivity|].
  destruct (auto_fit_text_only_sizes (text_box (py "Ann Lee")) 40 24 eq_refl)
    as (fitted & E & R & _ & T & I); [vm_compute; reflexivity ..|].
  exists fitted; split; [exact E|]; split; [|split; [exact T | exact I]].
  replace 40%Z with (fitted_size 40 24 (total_chars (paragraphs (text_box (py "Ann Lee")))))
    by (vm_compute; reflexivity).
  exact R.
Defined.

(** ** The loop over lines *)

Lemma unique_lines_spec (lines : list pystr) :
  forall seen,
    NoDup (unique_lines seen lines) /\
    forall x, In x (unique_lines seen lines) <->
              (nonempty x = true /\ In x (map strip lines) /\ mem x seen = false).
Proof.
  induction lines as [|line rest IH]; intros seen.
  - split; [constructor | cbn; tauto].
  - cbn [unique_lines map]; fold (mem (strip line) seen).
    destruct (nonempty (strip line)) eqn:Hn; cbn [andb].
    + destruct (mem (strip line) seen) eqn:Hm; cbn [negb].
      * destruct (IH seen) as [Hd Hx]; split; [exact Hd|].
        intros x; rewrite Hx; cbn [In]; split; [tauto|].
        intros (Hx1 & [<-|Hx2] & Hx3); [congruence | tauto].
      * destruct (IH (strip line :: seen)) as [Hd Hx]; split.
        -- constructor; [|exact Hd].
           rewrite Hx; intros (_ & _ & Hs); unfold mem in Hs; cbn [existsb] in Hs.
           rewrite str_eqb_refl in Hs; discriminate.
        -- intros x; cbn [In]; rewrite Hx; unfold mem; cbn [existsb].
           destruct (str_eqb x (strip line)) eqn:Ex.
           ++ apply str_eqb_eq in Ex; subst x; cbn [orb]; split; [|auto].
              intros _; auto.
           ++ cbn [orb]; split.
              ** intros [<-|?]; [rewrite str_eqb_refl in Ex; discriminate | tauto].
              ** intros (? & [<-|?] & ?);
                   [rewrite str_eqb_refl in Ex; discriminate | tauto].
    + destruct (IH seen) as [Hd Hx]; split; [exact Hd|].
      intros x; rewrite Hx; cbn [In]; split; [tauto|].
      intros (Hx1 & [<-|Hx2] & Hx3); [congruence | tauto].
Qed.

(** X15.  The duplicate-line loop keeps every line once: what it returns
    has no repetition, and holds exactly the stripped lines that are not
    empty, each of them without white space at either end. *)
Theorem unique_lines_no_duplicates (lines : list pystr) :
  let kept := unique_lines [] lines in
  NoDup kept /\
  (forall x, In x kept <-> nonempty x = true /\ In x (map strip lines)) /\
  Forall (fun x => strip x = x) kept.
Proof.
  cbv zeta; destruct (unique_lines_spec lines []) as [Hd Hx].
  split; [exact Hd|]; split.
  - intros x; rewrite Hx; cbn; tauto.
  - apply Forall_forall; intros x Hin.
    apply Hx in Hin as (_ & Hin & _).
    apply in_map_iff in Hin as (l & <- & _); apply strip_idem.
Qed.
